(** * SAP chat front end: the [App] component of [frontend/src/App.jsx]

    The component keeps five pieces of React state ([messages], [input],
    [isThinking], [imageBase64], [imagePreview]) and changes them from event
    handlers, some of which are [async] and suspend on promises
    ([fetch], [res.json()], the [FileReader] behind [fileToBase64]).

    The embedding has three layers:
    - JavaScript values and strings, with the operators the component uses
      (truthiness, [||], [trim], [startsWith], [split], property access);
    - handlers as [task]s: trees of setter calls and [await] points, with
      [try]/[catch]/[finally] as combinators;
    - React and the event loop: the setter calls of one synchronous segment
      are committed together, and a suspended handler resumes when its
      promise settles, on whatever state the component has by then. *)

From Stdlib Require Import List NArith ZArith Bool String Ascii Lia.
Import ListNotations.

Set Implicit Arguments.
Local Set Warnings "-register-all".

(* ================================================================== *)
(** * JavaScript strings *)
(* ================================================================== *)

(** A JavaScript string is a sequence of UTF-16 code units. *)
Definition jsstring := list N.

(** An ASCII literal of the source, as code units. *)
Definition lit (s : string) : jsstring :=
  map N_of_ascii (list_ascii_of_string s).

Fixpoint str_eqb (a b : jsstring) : bool :=
  match a, b with
  | [], [] => true
  | c :: a', d :: b' => N.eqb c d && str_eqb a' b'
  | _, _ => false
  end.

(** The code units [String.prototype.trim] strips: ECMAScript WhiteSpace
    (TAB, VT, FF, ZWNBSP and the Unicode space separators) and
    LineTerminator (LF, CR, LS, PS).  All lie in the basic plane. *)
Definition isWhiteSpace (c : N) : bool :=
  (N.eqb c 9 || N.eqb c 10 || N.eqb c 11 || N.eqb c 12 || N.eqb c 13
   || N.eqb c 32 || N.eqb c 160 || N.eqb c 5760
   || (N.leb 8192 c && N.leb c 8202)
   || N.eqb c 8232 || N.eqb c 8233 || N.eqb c 8239 || N.eqb c 8287
   || N.eqb c 12288 || N.eqb c 65279)%N.

Fixpoint trimStart (s : jsstring) : jsstring :=
  match s with
  | c :: s' => if isWhiteSpace c then trimStart s' else s
  | [] => []
  end.

Definition trimEnd (s : jsstring) : jsstring := rev (trimStart (rev s)).

Definition trim (s : jsstring) : jsstring := trimEnd (trimStart s).

(** [s.startsWith(p)] *)
Fixpoint startsWith (s p : jsstring) : bool :=
  match p, s with
  | [], _ => true
  | c :: p', d :: s' => N.eqb c d && startsWith s' p'
  | _ :: _, [] => false
  end.

(** [s.split(sep)] for a one-unit separator: never an empty array. *)
Fixpoint split (sep : N) (s : jsstring) : list jsstring :=
  match s with
  | [] => [[]]
  | c :: s' =>
      if N.eqb c sep then [] :: split sep s'
      else match split sep s' with
           | h :: t => (c :: h) :: t
           | [] => [[c]]
           end
  end.

Definition comma : N := 44.

(* ================================================================== *)
(** * JavaScript values *)
(* ================================================================== *)

(** The values that flow through the component: [null], [undefined],
    strings, and whatever [JSON.parse] can produce.  An object is kept as
    the list of its own properties.  Numbers are only ever stored, so
    integers stand in for them. *)
Inductive value : Type :=
| VUndefined
| VNull
| VBool (b : bool)
| VNum (n : Z)
| VStr (s : jsstring)
| VArr (items : list value)
| VObj (props : list (jsstring * value)).

(** ToBoolean *)
Definition truthy (v : value) : bool :=
  match v with
  | VUndefined | VNull => false
  | VBool b => b
  | VNum n => negb (Z.eqb n 0)
  | VStr s => match s with [] => false | _ :: _ => true end
  | VArr _ | VObj _ => true
  end.

(** [a || b] *)
Definition or_ (a b : value) : value := if truthy a then a else b.

Inductive error : Type :=
| TypeError
| SyntaxError
| NetworkError
| ReadError.

(** Result of evaluating an expression or a callback: a value or a throw. *)
Inductive completion (A : Type) : Type :=
| Normal (a : A)
| Thrown (e : error).
Arguments Thrown {A} e.

(** How a promise ends. *)
Inductive outcome (A : Type) : Type :=
| Fulfilled (a : A)
| Rejected (e : error).
Arguments Rejected {A} e.

Fixpoint lookup (key : jsstring) (props : list (jsstring * value)) : value :=
  match props with
  | [] => VUndefined
  | (k, v) :: rest => if str_eqb k key then v else lookup key rest
  end.

(** [v.key] for a key that no prototype defines: reading a property of
    [null] or [undefined] throws, a missing property is [undefined]. *)
Definition get (v : value) (key : jsstring) : completion value :=
  match v with
  | VUndefined | VNull => Thrown TypeError
  | VObj props => Normal (lookup key props)
  | VBool _ | VNum _ | VStr _ | VArr _ => Normal VUndefined
  end.

(** [arr[i]] on an array of strings *)
Definition index (arr : list jsstring) (i : nat) : value :=
  match nth_error arr i with
  | Some s => VStr s
  | None => VUndefined
  end.

(* ================================================================== *)
(** * Data model *)
(* ================================================================== *)

Inductive Role : Type := user | assistant.

(** One message of the transcript: [{ role, text, image }]. *)
Module Turn.
Record t : Type := mk { role : Role; text : value; image : value }.
End Turn.

(** The body handed to [JSON.stringify]. *)
Module Payload.
Record t : Type := mk {
  text : value;
  image_base64 : value;
  session_id : jsstring
}.
End Payload.

(** A [File]: its declared media type, what a [FileReader] ends with when
    asked for its data URL ([onload] with [reader.result], or [onerror]),
    and the object URL the browser mints for it. *)
Module File.
Record t : Type := mk {
  type : jsstring;
  dataURL : outcome jsstring;
  objectURL : jsstring
}.
End File.

(** A clipboard item; [getAsFile()] is [null] for an item that is no file. *)
Module Item.
Record t : Type := mk { type : jsstring; getAsFile : option File.t }.
End Item.

(** A [Response]: the status line and how [res.json()] ends (the parsed
    body, or a rejection when the body is no JSON). *)
Record Response : Type := {
  status : Z;
  json : outcome value
}.

Record RequestInit : Type := {
  method : jsstring;
  headers : list (jsstring * jsstring);
  body : Payload.t
}.

(** The five [useState] cells. *)
Record AppState : Type := {
  messages : list Turn.t;
  input : jsstring;
  isThinking : bool;
  imageBase64 : value;
  imagePreview : value
}.

Definition initial : AppState :=
  {| messages := []; input := []; isThinking := false;
     imageBase64 := VNull; imagePreview := VNull |}.

(* ================================================================== *)
(** * Handlers as tasks *)
(* ================================================================== *)

(** What a handler can do to the component: call one of the five setters,
    or log.  [setMessages] is always called with an updater function, which
    React runs later, when it processes the queue; an updater may throw. *)
Inductive action : Type :=
| SetMessages (updater : list Turn.t -> completion (list Turn.t))
| SetInput (v : jsstring)
| SetIsThinking (b : bool)
| SetImageBase64 (v : value)
| SetImagePreview (v : value)
| ConsoleError (label : jsstring) (err : error).

(** The promises a handler waits for. *)
Inductive promise : Type -> Type :=
| fetch (url : jsstring) (init : RequestInit) : promise Response
| res_json (res : Response) : promise value
| readAsDataURL (file : File.t) : promise jsstring.

(** What is left to run of an [async] function. *)
Inductive task : Type :=
| Return
| Throw (e : error)
| Act (a : action) (k : task)
| Await {R : Type} (p : promise R) (k : outcome R -> task).

Notation "a ;; k" := (Act a k) (at level 61, right associativity).

(** [const x = await p; k x]: a rejection is thrown at the [await]. *)
Definition await {R : Type} (p : (outcome R -> task) -> task)
    (k : R -> task) : task :=
  p (fun o => match o with
              | Fulfilled r => k r
              | Rejected e => Throw e
              end).

(** [try { body } catch (err) { handler err }] *)
Fixpoint try_catch (body : task) (handler : error -> task) : task :=
  match body with
  | Return => Return
  | Throw e => handler e
  | Act a k => Act a (try_catch k handler)
  | Await p k => Await p (fun o => try_catch (k o) handler)
  end.

(** [t1; t2] *)
Fixpoint seq (t1 t2 : task) : task :=
  match t1 with
  | Return => t2
  | Throw e => Throw e
  | Act a k => Act a (seq k t2)
  | Await p k => Await p (fun o => seq (k o) t2)
  end.

(** [try { body } finally { fin }]: [fin] runs on both exits, and a throw
    of [body] is thrown again after it. *)
Fixpoint finally (body fin : task) : task :=
  match body with
  | Return => fin
  | Throw e => seq fin (Throw e)
  | Act a k => Act a (finally k fin)
  | Await p k => Await p (fun o => finally (k o) fin)
  end.

Definition try_catch_finally (body : task) (handler : error -> task)
    (fin : task) : task :=
  finally (try_catch body handler) fin.

(** ** [fileToBase64] (lines 6-16)

    The promise resolves with [reader.result.split(",")[1]] when the reader
    loads, and rejects when it errors. *)
Definition fileToBase64 (file : File.t) (k : outcome value -> task) : task :=
  Await (readAsDataURL file) (fun o =>
    k (match o with
       | Fulfilled result => Fulfilled (index (split comma result) 1)
       | Rejected e => Rejected e
       end)).

Definition createObjectURL (file : File.t) : jsstring := File.objectURL file.

(** ** [handlePaste] (lines 34-44)

    [getAsFile()] may be [null]; [readAsDataURL(null)] then throws inside
    the promise executor, so the awaited promise is rejected and nothing
    after the [await] runs. *)
Definition handlePaste (items : list Item.t) : task :=
  match find (fun i => startsWith (Item.type i) (lit "image/")) items with
  | Some item =>
      match Item.getAsFile item with
      | Some file =>
          await (fileToBase64 file) (fun b64 =>
          SetImageBase64 b64 ;;
          SetImagePreview (VStr (createObjectURL file)) ;;
          Return)
      | None => Throw TypeError
      end
  | None => Return
  end.

(** ** [handleFile] (lines 95-101); [None] is [undefined] from
    [e.target.files?.[0]]. *)
Definition handleFile (file : option File.t) : task :=
  match file with
  | Some f =>
      if startsWith (File.type f) (lit "image/") then
        await (fileToBase64 f) (fun b64 =>
        SetImageBase64 b64 ;;
        SetImagePreview (VStr (createObjectURL f)) ;;
        Return)
      else Return
  | None => Return
  end.

(** ** [sendMessage] (lines 51-92)

    [s] is the state of the render the handler closes over: [input],
    [imageBase64] and [imagePreview] are read from it, also inside the
    updater of the user turn. *)
Definition endpoint : jsstring := lit "http://localhost:8000/query".

Definition error_text : jsstring := lit "Error contacting backend.".

Definition userTurn (s : AppState) : Turn.t :=
  Turn.mk user (or_ (VStr (input s)) (VStr [])) (imagePreview s).

Definition payload (s : AppState) : Payload.t :=
  Payload.mk (or_ (VStr (input s)) VNull)
             (or_ (imageBase64 s) VNull)
             (lit "sap-session-1").

Definition request (s : AppState) : RequestInit :=
  {| method := lit "POST";
     headers := [(lit "Content-Type", lit "application/json")];
     body := payload s |}.

(** The updater of line 79: [data.answer] is evaluated when React runs the
    updater, not inside the [try] block. *)
Definition appendAnswer (data : value) (prev : list Turn.t)
    : completion (list Turn.t) :=
  match get data (lit "answer") with
  | Normal answer => Normal (prev ++ [Turn.mk assistant answer VNull])
  | Thrown e => Thrown e
  end.

Definition append (turn : Turn.t) (prev : list Turn.t)
    : completion (list Turn.t) :=
  Normal (prev ++ [turn]).

Definition errorTurn : Turn.t := Turn.mk assistant (VStr error_text) VNull.

Definition sendMessage (s : AppState) : task :=
  if negb (truthy (VStr (trim (input s)))) && negb (truthy (imageBase64 s))
  then Return
  else
    SetMessages (append (userTurn s)) ;;
    SetInput [] ;;
    SetImageBase64 VNull ;;
    SetImagePreview VNull ;;
    SetIsThinking true ;;
    try_catch_finally
      (await (Await (fetch endpoint (request s))) (fun res =>
       await (Await (res_json res)) (fun data =>
       SetMessages (appendAnswer data) ;;
       Return)))
      (fun err =>
       ConsoleError (lit "Backend error:") err ;;
       SetMessages (append errorTurn) ;;
       Return)
      (SetIsThinking false ;; Return).

(** ** The inline handlers of the JSX *)

(** [onChange] of the text box (line 161). *)
Definition onInputChange (v : jsstring) : task := SetInput v ;; Return.

(** [onKeyDown] of the text box (lines 162-167). *)
Definition onKeyDown (s : AppState) (key : jsstring) (shiftKey : bool) : task :=
  if str_eqb key (lit "Enter") && negb shiftKey then sendMessage s else Return.

(** [onClick] of the remove button (lines 189-192). *)
Definition onRemoveClick : task :=
  SetImageBase64 VNull ;; SetImagePreview VNull ;; Return.

(* ================================================================== *)
(** * React and the event loop *)
(* ================================================================== *)

(** ** One setter call on the state *)
Definition apply (s : AppState) (a : action) : completion AppState :=
  match a with
  | SetMessages updater =>
      match updater (messages s) with
      | Normal m =>
          Normal {| messages := m; input := input s;
                    isThinking := isThinking s;
                    imageBase64 := imageBase64 s;
                    imagePreview := imagePreview s |}
      | Thrown e => Thrown e
      end
  | SetInput v =>
      Normal {| messages := messages s; input := v;
                isThinking := isThinking s;
                imageBase64 := imageBase64 s;
                imagePreview := imagePreview s |}
  | SetIsThinking b =>
      Normal {| messages := messages s; input := input s;
                isThinking := b;
                imageBase64 := imageBase64 s;
                imagePreview := imagePreview s |}
  | SetImageBase64 v =>
      Normal {| messages := messages s; input := input s;
                isThinking := isThinking s;
                imageBase64 := v;
                imagePreview := imagePreview s |}
  | SetImagePreview v =>
      Normal {| messages := messages s; input := input s;
                isThinking := isThinking s;
                imageBase64 := imageBase64 s;
                imagePreview := v |}
  | ConsoleError _ _ => Normal s
  end.

(** ** A batch of setter calls, processed in call order.  A throwing
    updater makes the render throw. *)
Fixpoint commit (s : AppState) (batch : list action) : completion AppState :=
  match batch with
  | [] => Normal s
  | a :: rest =>
      match apply s a with
      | Normal s' => commit s' rest
      | Thrown e => Thrown e
      end
  end.

(** ** A synchronous segment: the handler runs without interruption up to
    its next [await], or to its end. *)
Inductive stop : Type :=
| Completed
| Failed (e : error)
| Suspended {R : Type} (p : promise R) (k : outcome R -> task).

Fixpoint run_sync (t : task) : list action * stop :=
  match t with
  | Return => ([], Completed)
  | Throw e => ([], Failed e)
  | Act a k => let (batch, st) := run_sync k in (a :: batch, st)
  | Await p k => ([], Suspended p k)
  end.

(** The state React renders after the segment of [t] that starts on [s]. *)
Definition render_after (s : AppState) (t : task) : completion AppState :=
  commit s (fst (run_sync t)).

(** ** The network requests of a whole run

    An [oracle] says how each promise ends; [requests] lists the [fetch]
    calls the handler makes when its promises end that way. *)
Definition oracle : Type := forall R : Type, promise R -> outcome R.

Definition fetch_of {R : Type} (p : promise R)
    : list (jsstring * RequestInit) :=
  match p with
  | fetch url init => [(url, init)]
  | res_json _ => []
  | readAsDataURL _ => []
  end.

Fixpoint requests (env : oracle) (t : task) : list (jsstring * RequestInit) :=
  match t with
  | Return => []
  | Throw _ => []
  | Act _ k => requests env k
  | Await p k => fetch_of p ++ requests env (k (env _ p))
  end.

(** ** How the environment may settle a promise: the network is free,
    [res.json()] and the reader end as the response and the file say. *)
Definition settles {R : Type} (p : promise R) : outcome R -> Prop :=
  match p in promise T return outcome T -> Prop with
  | fetch _ _ => fun _ => True
  | res_json res => fun o => o = json res
  | readAsDataURL file => fun o => o = File.dataURL file
  end.

(** ** The component over time *)
Inductive suspended : Type :=
| Waiting {R : Type} (p : promise R) (k : outcome R -> task).

Inductive World : Type :=
| Mounted (s : AppState) (waiting : list suspended)
| Unmounted.

(** The user's events. *)
Inductive event : Type :=
| Change (v : jsstring)
| KeyDown (key : jsstring) (shiftKey : bool)
| SendClick
| PasteEvent (items : list Item.t)
| FileChosen (file : option File.t)
| RemoveClick.

(** The remove button exists only while [imagePreview] is truthy
    (line 181). *)
Definition enabled (s : AppState) (ev : event) : bool :=
  match ev with
  | RemoveClick => truthy (imagePreview s)
  | _ => true
  end.

Definition handler (s : AppState) (ev : event) : task :=
  match ev with
  | Change v => onInputChange v
  | KeyDown key shiftKey => onKeyDown s key shiftKey
  | SendClick => sendMessage s
  | PasteEvent items => handlePaste items
  | FileChosen file => handleFile file
  | RemoveClick => onRemoveClick
  end.

Definition parked (st : stop) : list suspended :=
  match st with
  | Suspended p k => [Waiting p k]
  | Completed => []
  | Failed _ => []
  end.

(** Run one segment of [t] on [s]: commit its batch, park what is left.
    A render that throws unmounts the tree (there is no error boundary).
    Only a throwing updater is taken as a throwing render here; React
    also throws when a turn's text is an object it cannot show, so this
    model keeps the component mounted in some states where the program
    is unmounted. *)
Definition advance (s : AppState) (waiting : list suspended) (t : task)
    : World :=
  match render_after s t with
  | Normal s' => Mounted s' (waiting ++ parked (snd (run_sync t)))
  | Thrown _ => Unmounted
  end.

Inductive step : World -> World -> Prop :=
| step_event s waiting ev :
    enabled s ev = true ->
    step (Mounted s waiting) (advance s waiting (handler s ev))
| step_settle s before after R (p : promise R) k o :
    settles p o ->
    step (Mounted s (before ++ Waiting p k :: after))
         (advance s (before ++ after) (k o)).

Inductive reachable : World -> Prop :=
| reach_initial : reachable (Mounted initial [])
| reach_step w w' : reachable w -> step w w' -> reachable w'.

Definition state_of (w : World) : option AppState :=
  match w with
  | Mounted s _ => Some s
  | Unmounted => None
  end.

Unset Implicit Arguments.

(* ================================================================== *)
(** * Notions used by the statements *)
(* ================================================================== *)

(** The pending attachment is the pair of [imageBase64] and
    [imagePreview]: absent when both are [null], present when both hold a
    string. *)
Definition no_attachment (s : AppState) : Prop :=
  imageBase64 s = VNull /\ imagePreview s = VNull.

Definition has_attachment (s : AppState) (b64 preview : jsstring) : Prop :=
  imageBase64 s = VStr b64 /\ imagePreview s = VStr preview.

(** The guard of line 52, read positively. *)
Definition proceeds (s : AppState) : bool :=
  truthy (VStr (trim (input s))) || truthy (imageBase64 s).

(** The [fetch] on which the first segment of a task suspends, with the
    continuation that waits for it. *)
Fixpoint pending_fetch (t : task)
    : option (jsstring * RequestInit * (outcome Response -> task)) :=
  match t with
  | Return => None
  | Throw _ => None
  | Act _ k => pending_fetch k
  | Await p k =>
      match p in promise T
            return (outcome T -> task) ->
                   option (jsstring * RequestInit * (outcome Response -> task))
      with
      | fetch url init => fun k' => Some (url, init, k')
      | res_json _ => fun _ => None
      | readAsDataURL _ => fun _ => None
      end k
  end.

(** [finishes_with Q t]: however its promises settle, [t] calls no setter
    until its last synchronous segment, which completes normally; and if
    the component is in state [s] when that segment runs, the render that
    follows relates to [s] by [Q]. *)
Fixpoint finishes_with (Q : AppState -> completion AppState -> Prop)
    (t : task) : Prop :=
  match t with
  | Await p k => forall o, settles p o -> finishes_with Q (k o)
  | _ => snd (run_sync t) = Completed /\ forall s, Q s (render_after s t)
  end.

(** The state after an assistant turn is appended and the flag cleared. *)
Definition replied (s : AppState) (turn : Turn.t) : AppState :=
  {| messages := messages s ++ [turn];
     input := input s;
     isThinking := false;
     imageBase64 := imageBase64 s;
     imagePreview := imagePreview s |}.

(** The state after a submit that appended [turn]. *)
Definition submitted (s : AppState) (turn : Turn.t) : AppState :=
  {| messages := messages s ++ [turn];
     input := [];
     isThinking := true;
     imageBase64 := VNull;
     imagePreview := VNull |}.

(** The state with the attachment slot taken by [file], read as [result]. *)
Definition attached (s : AppState) (file : File.t) (result : jsstring)
    : AppState :=
  {| messages := messages s;
     input := input s;
     isThinking := isThinking s;
     imageBase64 := index (split comma result) 1;
     imagePreview := VStr (createObjectURL file) |}.

(** The state with the attachment slot emptied. *)
Definition detached (s : AppState) : AppState :=
  {| messages := messages s;
     input := input s;
     isThinking := isThinking s;
     imageBase64 := VNull;
     imagePreview := VNull |}.

(** Both representations are absent, or both come from one file. *)
Definition paired (s : AppState) : Prop :=
  no_attachment s \/
  exists file result,
    File.dataURL file = Fulfilled result /\
    imageBase64 s = index (split comma result) 1 /\
    imagePreview s = VStr (createObjectURL file).

(** What a submit of the image alone is expected to do: one user turn
    with the empty string as text and the preview reference as image, one
    request with [text] [null] and the base64 payload. *)
Definition sends_image_only (s : AppState) (b64 preview : jsstring) : Prop :=
  render_after s (sendMessage s) =
    Normal (submitted s (Turn.mk user (VStr []) (VStr preview))) /\
  forall env, exists init,
    requests env (sendMessage s) = [(endpoint, init)] /\
    Payload.text (body init) = VNull /\
    Payload.image_base64 (body init) = VStr b64.

(** What a submit of a draft as typed is expected to do: one user turn
    whose text is the untrimmed draft, one request whose [text] is that
    same string; neither the empty string nor [null]. *)
Definition sends_untrimmed (s : AppState) : Prop :=
  render_after s (sendMessage s) =
    Normal (submitted s (Turn.mk user (VStr (input s)) (imagePreview s))) /\
  VStr (input s) <> VStr [] /\
  forall env, exists init,
    requests env (sendMessage s) = [(endpoint, init)] /\
    Payload.text (body init) = VStr (input s) /\
    Payload.text (body init) <> VNull.

(** The ways a backend request can fail. *)
Inductive request_failure : outcome Response -> Prop :=
| network_unreachable e : request_failure (Rejected e)
| non_2xx_status res :
    (status res < 200 \/ 300 <= status res)%Z ->
    request_failure (Fulfilled res)
| malformed_body res e :
    json res = Rejected e -> request_failure (Fulfilled res).

(** The failures that make the [try] block throw: [fetch] rejects, or
    [res.json()] rejects; the status plays no part. *)
Inductive call_throws : outcome Response -> Prop :=
| fetch_rejects e : call_throws (Rejected e)
| json_rejects res e : json res = Rejected e -> call_throws (Fulfilled res).

(** The continuation [k], resumed with [o], ends by appending the fixed
    error turn and clearing the thinking flag, on whatever state the
    component has by then. *)
Definition surfaces_error (k : outcome Response -> task)
    (o : outcome Response) : Prop :=
  finishes_with (fun s r => r = Normal (replied s errorTurn)) (k o).

(** What is left of [handleFile] and [handlePaste] once a file is chosen. *)
Definition ingest (file : File.t) : task :=
  await (fileToBase64 file) (fun b64 =>
  SetImageBase64 b64 ;;
  SetImagePreview (VStr (createObjectURL file)) ;;
  Return).

(** ** Invariants

    [I] is a property of states.  The first segment of [t] takes states in
    [I] to states in [I]. *)
Definition segment_keeps (I : AppState -> Prop) (t : task) : Prop :=
  forall s s', I s -> render_after s t = Normal s' -> I s'.

(** So does every later segment, however the promises settle. *)
Fixpoint resumptions_keep (I : AppState -> Prop) (t : task) : Prop :=
  match t with
  | Return => True
  | Throw _ => True
  | Act _ k => resumptions_keep I k
  | Await p k =>
      forall o, settles p o ->
                segment_keeps I (k o) /\ resumptions_keep I (k o)
  end.

Definition keeps (I : AppState -> Prop) (t : task) : Prop :=
  segment_keeps I t /\ resumptions_keep I t.

Definition waiting_keeps (I : AppState -> Prop) (w : suspended) : Prop :=
  match w with
  | Waiting p k => forall o, settles p o -> keeps I (k o)
  end.

Definition world_ok (I : AppState -> Prop) (w : World) : Prop :=
  match w with
  | Mounted s waiting => I s /\ Forall (waiting_keeps I) waiting
  | Unmounted => True
  end.

(* ================================================================== *)
(** * Sample inputs *)
(* ================================================================== *)

Definition draft_hi : AppState :=
  {| messages := []; input := lit " hi "; isThinking := false;
     imageBase64 := VNull; imagePreview := VNull |}.

(** An image file of zero bytes: its data URL ends at the comma, so
    [fileToBase64] yields the empty string. *)
Definition emptyPng : File.t :=
  File.mk (lit "image/png")
          (Fulfilled (lit "data:image/png;base64,"))
          (lit "blob:http://localhost:5173/0").

Definition emptyStaged : AppState :=
  {| messages := []; input := []; isThinking := false;
     imageBase64 := VStr [];
     imagePreview := VStr (lit "blob:http://localhost:5173/0") |}.

Definition emptyStagedBlank : AppState :=
  {| messages := []; input := lit "  "; isThinking := false;
     imageBase64 := VStr [];
     imagePreview := VStr (lit "blob:http://localhost:5173/0") |}.

Definition pngStaged : AppState :=
  {| messages := []; input := []; isThinking := false;
     imageBase64 := VStr (lit "iVBORw0KGgo=");
     imagePreview := VStr (lit "blob:http://localhost:5173/1") |}.

Definition pngStagedBlank : AppState :=
  {| messages := []; input := lit "  "; isThinking := false;
     imageBase64 := VStr (lit "iVBORw0KGgo=");
     imagePreview := VStr (lit "blob:http://localhost:5173/1") |}.

Definition draft_hello : AppState :=
  {| messages := []; input := lit "hello"; isThinking := false;
     imageBase64 := VNull; imagePreview := VNull |}.

(** A 500 whose body is the JSON object
    [{"detail": "Internal Server Error"}]. *)
Definition serverError : Response :=
  {| status := 500;
     json := Fulfilled
               (VObj [(lit "detail", VStr (lit "Internal Server Error"))]) |}.

(** A 502 whose body is an HTML page. *)
Definition badGateway : Response :=
  {| status := 502; json := Rejected SyntaxError |}.

Definition okReply : Response :=
  {| status := 200;
     json := Fulfilled (VObj [(lit "answer", VStr (lit "Oak trees."))]) |}.

Definition leafPng : File.t :=
  File.mk (lit "image/png")
          (Fulfilled (lit "data:image/png;base64,iVBORw0KGgo="))
          (lit "blob:http://localhost:5173/1").

Definition notesPdf : File.t :=
  File.mk (lit "application/pdf")
          (Fulfilled (lit "data:application/pdf;base64,JVBERi0="))
          (lit "blob:http://localhost:5173/2").

(* ================================================================== *)
(** * Further notions *)
(* ================================================================== *)

(** How the promise of an [async] handler ends when its own promises end
    as [env] says: [None] when it fulfils, [Some e] when it rejects. *)
Fixpoint rejection (env : oracle) (t : task) : option error :=
  match t with
  | Return => None
  | Throw e => Some e
  | Act _ k => rejection env k
  | Await p k => rejection env (k (env _ p))
  end.

(** The text of the assistant turn a settled request leads to; a throw
    when reading [data.answer] throws. *)
Definition reply_text (o : outcome Response) : completion value :=
  match o with
  | Rejected _ => Normal (VStr error_text)
  | Fulfilled res =>
      match json res with
      | Rejected _ => Normal (VStr error_text)
      | Fulfilled data => get data (lit "answer")
      end
  end.

(** What React accepts as the child [{text}] of a bubble (line 232):
    strings and numbers are shown, booleans, [null] and [undefined] show
    nothing, an array is rendered child by child; an object makes the
    render throw. *)
Fixpoint renderable (v : value) : bool :=
  match v with
  | VObj _ => false
  | VArr items => forallb renderable items
  | VUndefined => true
  | VNull => true
  | VBool _ => true
  | VNum _ => true
  | VStr _ => true
  end.

Definition image_item (i : Item.t) : bool :=
  startsWith (Item.type i) (lit "image/").

(** ** Relations between the states before and after a segment *)

Definition segment_rel (Rel : AppState -> AppState -> Prop) (t : task)
    : Prop :=
  forall s s', render_after s t = Normal s' -> Rel s s'.

Fixpoint resumptions_rel (Rel : AppState -> AppState -> Prop) (t : task)
    : Prop :=
  match t with
  | Return => True
  | Throw _ => True
  | Act _ k => resumptions_rel Rel k
  | Await p k =>
      forall o, settles p o ->
                segment_rel Rel (k o) /\ resumptions_rel Rel (k o)
  end.

Definition waiting_rel (Rel : AppState -> AppState -> Prop) (w : suspended)
    : Prop :=
  match w with
  | Waiting p k =>
      forall o, settles p o ->
                segment_rel Rel (k o) /\ resumptions_rel Rel (k o)
  end.

Definition waiting_of (w : World) : list suspended :=
  match w with
  | Mounted _ waiting => waiting
  | Unmounted => []
  end.

(** What a resumed handler can do to the state: nothing, append one
    assistant turn without image and clear the thinking flag, or fill the
    attachment slot from one file. *)
Definition completion_effect (s s' : AppState) : Prop :=
  s' = s \/
  (exists text, s' = replied s (Turn.mk assistant text VNull)) \/
  (exists file result,
     File.dataURL file = Fulfilled result /\ s' = attached s file result).

(** Any number of steps. *)
Inductive steps : World -> World -> Prop :=
| steps_none w : steps w w
| steps_more w w' w'' : steps w w' -> step w' w'' -> steps w w''.

(** ** Shape of the turns

    A user turn holds a string as text and [null] or a string as image;
    an assistant turn holds no image. *)
Definition string_or_null (v : value) : Prop :=
  v = VNull \/ exists str, v = VStr str.

Definition well_formed_turn (turn : Turn.t) : Prop :=
  match Turn.role turn with
  | user =>
      (exists str, Turn.text turn = VStr str) /\
      string_or_null (Turn.image turn)
  | assistant => Turn.image turn = VNull
  end.

Definition well_formed (s : AppState) : Prop :=
  string_or_null (imagePreview s) /\
  Forall well_formed_turn (messages s).

(** ** The thinking flag and the requests under way *)

(** The entry waits for [fetch] or for [res.json()]. *)
Definition awaits_reply (w : suspended) : bool :=
  match w with
  | Waiting p _ =>
      match p with
      | fetch _ _ => true
      | res_json _ => true
      | readAsDataURL _ => false
      end
  end.

(** The segment of [t] parks nothing and leaves the flag false. *)
Definition clears_flag (t : task) : Prop :=
  parked (snd (run_sync t)) = [] /\
  forall s s', render_after s t = Normal s' -> isThinking s' = false.

(** The segment of [t] parks nothing and leaves the flag as it is. *)
Definition leaves_flag (t : task) : Prop :=
  parked (snd (run_sync t)) = [] /\
  forall s s', render_after s t = Normal s' -> isThinking s' = isThinking s.

Definition flag_entry (w : suspended) : Prop :=
  match w with
  | Waiting p k =>
      match p in promise T return (outcome T -> task) -> Prop with
      | fetch _ _ => fun k' =>
          forall o,
            clears_flag (k' o) \/
            exists res k'',
              k' o = Await (res_json res) k'' /\
              forall o', clears_flag (k'' o')
      | res_json _ => fun k' => forall o, clears_flag (k' o)
      | readAsDataURL _ => fun k' => forall o, leaves_flag (k' o)
      end k
  end.

Definition flag_inv (w : World) : Prop :=
  match w with
  | Mounted s waiting =>
      Forall flag_entry waiting /\
      (isThinking s = true -> existsb awaits_reply waiting = true)
  | Unmounted => True
  end.

(** ** More sample inputs *)

Definition emptyStagedAsking : AppState :=
  {| messages := []; input := lit "what is this?"; isThinking := false;
     imageBase64 := VStr [];
     imagePreview := VStr (lit "blob:http://localhost:5173/0") |}.

(** A file whose reader yields the bare ["data:"]. *)
Definition barePng : File.t :=
  File.mk (lit "image/png") (Fulfilled (lit "data:"))
          (lit "blob:http://localhost:5173/3").

(** A file the reader fails on. *)
Definition brokenPng : File.t :=
  File.mk (lit "image/png") (Rejected ReadError)
          (lit "blob:http://localhost:5173/4").

Definition nullReply : Response :=
  {| status := 200; json := Fulfilled VNull |}.

Definition emptyObjectReply : Response :=
  {| status := 200; json := Fulfilled (VObj []) |}.

Definition okReply201 : Response :=
  {| status := 201;
     json := Fulfilled (VObj [(lit "answer", VStr (lit "Oak trees."))]) |}.

(** The continuation parked by submitting the draft ["hello"]. *)
Definition helloContinuation : outcome Response -> task :=
  match pending_fetch (sendMessage draft_hello) with
  | Some (_, _, k) => k
  | None => fun _ => Return
  end.

(** The state after that submit, once the user has typed ["next"]. *)
Definition typedWhileWaiting : AppState :=
  {| messages := [Turn.mk user (VStr (lit "hello")) VNull];
     input := lit "next";
     isThinking := true;
     imageBase64 := VNull;
     imagePreview := VNull |}.

Definition helloWaiting : list suspended :=
  [Waiting (fetch endpoint (request draft_hello)) helloContinuation].

(** An environment with the network down: [fetch] rejects, and the
    other promises end as the response and the file say. *)
Definition offline : oracle :=
  fun R p =>
    match p in promise T return outcome T with
    | fetch _ _ => Rejected NetworkError
    | res_json res => json res
    | readAsDataURL file => File.dataURL file
    end.

(* ================================================================== *)
(** * Strings *)
(* ================================================================== *)

Lemma trimStart_whitespace (s : jsstring) :
  forallb isWhiteSpace s = true -> trimStart s = [].
Proof.
  induction s as [| c s IH]; simpl; [reflexivity |].
  intro H. apply andb_true_iff in H as [Hc Hs].
  rewrite Hc. exact (IH Hs).
Qed.

Lemma trim_whitespace (s : jsstring) :
  forallb isWhiteSpace s = true -> trim s = [].
Proof.
  intro H. unfold trim. rewrite (trimStart_whitespace s H). reflexivity.
Qed.

Lemma trim_nonempty (s : jsstring) : trim s <> [] -> s <> [].
Proof. intros H E. apply H. rewrite E. reflexivity. Qed.

Lemma truthy_str (s : jsstring) : truthy (VStr s) = true <-> s <> [].
Proof.
  destruct s; simpl; split; intro H; try reflexivity;
    try discriminate; congruence.
Qed.

Lemma falsy_str (s : jsstring) : truthy (VStr s) = false <-> s = [].
Proof.
  destruct s; simpl; split; intro H; try reflexivity;
    try discriminate; congruence.
Qed.

(* ================================================================== *)
(** * [sendMessage]: the guard *)
(* ================================================================== *)

Lemma sendMessage_skips (s : AppState) :
  proceeds s = false -> sendMessage s = Return.
Proof.
  unfold proceeds, sendMessage. intro H.
  apply orb_false_iff in H as [H1 H2]. rewrite H1, H2. reflexivity.
Qed.

Lemma sendMessage_runs (s : AppState) :
  proceeds s = true ->
  sendMessage s =
    (SetMessages (append (userTurn s)) ;;
     SetInput [] ;;
     SetImageBase64 VNull ;;
     SetImagePreview VNull ;;
     SetIsThinking true ;;
     try_catch_finally
       (await (Await (fetch endpoint (request s))) (fun res =>
        await (Await (res_json res)) (fun data =>
        SetMessages (appendAnswer data) ;;
        Return)))
       (fun err =>
        ConsoleError (lit "Backend error:") err ;;
        SetMessages (append errorTurn) ;;
        Return)
       (SetIsThinking false ;; Return)).
Proof.
  unfold proceeds, sendMessage. intro H.
  destruct (truthy (VStr (trim (input s)))); simpl in *.
  - reflexivity.
  - rewrite H. reflexivity.
Qed.

Lemma proceeds_text (s : AppState) : trim (input s) <> [] -> proceeds s = true.
Proof.
  intro H. unfold proceeds. apply truthy_str in H. rewrite H. reflexivity.
Qed.

Lemma proceeds_image (s : AppState) :
  truthy (imageBase64 s) = true -> proceeds s = true.
Proof. intro H. unfold proceeds. rewrite H. apply orb_true_r. Qed.

(** Whatever the promises do, a submit that proceeds makes one request. *)
Lemma sendMessage_requests (env : oracle) (s : AppState) :
  proceeds s = true ->
  requests env (sendMessage s) = [(endpoint, request s)].
Proof.
  intro H. rewrite (sendMessage_runs s H). simpl.
  destruct (env Response (fetch endpoint (request s))) as [res | e]; simpl.
  - destruct (env value (res_json res)); reflexivity.
  - reflexivity.
Qed.

Lemma sendMessage_render (s : AppState) :
  proceeds s = true ->
  render_after s (sendMessage s) = Normal (submitted s (userTurn s)).
Proof. intro H. rewrite (sendMessage_runs s H). reflexivity. Qed.

Lemma advance_submit (s : AppState) (waiting : list suspended) :
  proceeds s = true ->
  exists k,
    advance s waiting (sendMessage s) =
      Mounted (submitted s (userTurn s))
              (waiting ++ [Waiting (fetch endpoint (request s)) k]).
Proof.
  intro H. unfold advance. rewrite (sendMessage_render s H).
  rewrite (sendMessage_runs s H). eexists. reflexivity.
Qed.

(* ================================================================== *)
(** * Submitting *)
(* ================================================================== *)

(** C2. With a draft that is empty after trimming and no pending
    attachment, [sendMessage] changes nothing: the component stays in the
    same state (no turn appended; draft, attachment and thinking flag as
    they were), no continuation is left waiting, and no request is made
    however the environment behaves. *)
Theorem sendMessage_noop (s : AppState) (waiting : list suspended) :
  trim (input s) = [] ->
  no_attachment s ->
  advance s waiting (sendMessage s) = Mounted s waiting /\
  forall env, requests env (sendMessage s) = [].
Proof.
  intros Ht [Hb _].
  assert (Hp : proceeds s = false).
  { unfold proceeds. rewrite Ht, Hb. reflexivity. }
  rewrite (sendMessage_skips s Hp). split.
  - unfold advance. simpl. rewrite app_nil_r. reflexivity.
  - reflexivity.
Qed.

Lemma sendMessage_noop_witness :
  advance initial [] (sendMessage initial) = Mounted initial [] /\
  forall env, requests env (sendMessage initial) = [].
Proof.
  apply (sendMessage_noop initial []).
  - reflexivity.
  - split; reflexivity.
Defined.

(** C3. With a draft that is non-empty after trimming and no pending
    attachment, the submit appends exactly one user turn, carrying the
    draft as typed and no image, and exactly one request is made, whose
    payload has [text] equal to the draft and [image_base64] equal to
    [null]. *)
Theorem sendMessage_text_only (s : AppState) :
  trim (input s) <> [] ->
  no_attachment s ->
  render_after s (sendMessage s) =
    Normal (submitted s (Turn.mk user (VStr (input s)) VNull)) /\
  forall env, exists init,
    requests env (sendMessage s) = [(endpoint, init)] /\
    Payload.text (body init) = VStr (input s) /\
    Payload.image_base64 (body init) = VNull.
Proof.
  intros Ht [Hb Hp].
  pose proof (proceeds_text s Ht) as Hgo.
  pose proof (trim_nonempty (input s) Ht) as Hin.
  apply truthy_str in Hin. split.
  - rewrite (sendMessage_render s Hgo). unfold userTurn, or_.
    rewrite Hin, Hp. reflexivity.
  - intro env. exists (request s). split.
    + apply sendMessage_requests. exact Hgo.
    + simpl. unfold or_. rewrite Hin, Hb. split; reflexivity.
Qed.

Lemma sendMessage_text_only_witness :
  render_after draft_hi (sendMessage draft_hi) =
    Normal (submitted draft_hi (Turn.mk user (VStr (lit " hi ")) VNull)) /\
  forall env, exists init,
    requests env (sendMessage draft_hi) = [(endpoint, init)] /\
    Payload.text (body init) = VStr (lit " hi ") /\
    Payload.image_base64 (body init) = VNull.
Proof.
  apply (sendMessage_text_only draft_hi).
  - vm_compute. discriminate.
  - split; reflexivity.
Defined.

(** C7. For a submit that passes the guard, the state React renders while
    the request is still waiting to settle (its continuation parked, so
    neither the success nor the failure branch has run) has the draft
    cleared, both attachment cells [null] and the thinking flag set. *)
Theorem sendMessage_clears_before_settling
    (s : AppState) (waiting : list suspended) :
  trim (input s) <> [] \/ truthy (imageBase64 s) = true ->
  exists s' k,
    advance s waiting (sendMessage s) =
      Mounted s' (waiting ++ [Waiting (fetch endpoint (request s)) k]) /\
    input s' = [] /\
    imageBase64 s' = VNull /\
    imagePreview s' = VNull /\
    isThinking s' = true.
Proof.
  intro H.
  assert (Hgo : proceeds s = true).
  { destruct H as [H | H]; [apply proceeds_text | apply proceeds_image];
      exact H. }
  destruct (advance_submit s waiting Hgo) as [k Hk].
  exists (submitted s (userTurn s)), k.
  split; [exact Hk |]. repeat split.
Qed.

Lemma sendMessage_clears_before_settling_witness :
  exists s' k,
    advance draft_hi [] (sendMessage draft_hi) =
      Mounted s' ([] ++ [Waiting (fetch endpoint (request draft_hi)) k]) /\
    input s' = [] /\
    imageBase64 s' = VNull /\
    imagePreview s' = VNull /\
    isThinking s' = true.
Proof.
  apply (sendMessage_clears_before_settling draft_hi []).
  left. vm_compute. discriminate.
Defined.

(* ================================================================== *)
(** * Submitting with an attachment *)
(* ================================================================== *)

(** Choosing the empty image in the file picker leads to [emptyStaged]. *)
Lemma emptyStaged_reachable : reachable (Mounted emptyStaged []).
Proof.
  eapply reach_step.
  - eapply reach_step.
    + apply reach_initial.
    + apply (step_event initial [] (FileChosen (Some emptyPng))).
      reflexivity.
  - exact (step_settle initial [] [] (readAsDataURL emptyPng) _
             (Fulfilled (lit "data:image/png;base64,")) eq_refl).
Qed.

(** Typing two spaces first leads to [emptyStagedBlank]. *)
Lemma emptyStagedBlank_reachable : reachable (Mounted emptyStagedBlank []).
Proof.
  eapply reach_step.
  - apply emptyStaged_reachable.
  - apply (step_event emptyStaged [] (Change (lit "  "))). reflexivity.
Qed.

(** C4, as stated, fails: with the empty image staged and an empty draft,
    an attachment is pending, yet the submit appends no turn and makes no
    request. *)
Lemma sends_image_only_fails_on_empty_payload :
  has_attachment emptyStaged [] (lit "blob:http://localhost:5173/0") /\
  input emptyStaged = [] /\
  render_after emptyStaged (sendMessage emptyStaged) = Normal emptyStaged /\
  (forall env, requests env (sendMessage emptyStaged) = []) /\
  ~ sends_image_only emptyStaged [] (lit "blob:http://localhost:5173/0").
Proof.
  split; [split; reflexivity |].
  split; [reflexivity |].
  split; [reflexivity |].
  split; [reflexivity |].
  intros [H _]. discriminate H.
Qed.

(** C4, amended. With a pending attachment whose base64 payload is a
    non-empty string, and an empty draft, the submit appends exactly one
    user turn, with the empty string as text and the attachment's preview
    reference as image, and
    makes one request whose payload has [text] [null] and [image_base64]
    equal to the attachment's payload. *)
Theorem sendMessage_image_only (s : AppState) (b64 preview : jsstring) :
  has_attachment s b64 preview ->
  b64 <> [] ->
  input s = [] ->
  sends_image_only s b64 preview.
Proof.
  intros [Hb Hp] Hne Hin.
  apply truthy_str in Hne.
  assert (Hgo : proceeds s = true).
  { apply proceeds_image. rewrite Hb. exact Hne. }
  split.
  - rewrite (sendMessage_render s Hgo). unfold userTurn, or_.
    rewrite Hin, Hp. reflexivity.
  - intro env. exists (request s). split.
    + apply sendMessage_requests. exact Hgo.
    + simpl. unfold or_. rewrite Hin, Hb, Hne. split; reflexivity.
Qed.

Lemma sendMessage_image_only_witness :
  sends_image_only pngStaged (lit "iVBORw0KGgo=")
                   (lit "blob:http://localhost:5173/1").
Proof.
  apply (sendMessage_image_only pngStaged).
  - split; reflexivity.
  - vm_compute. discriminate.
  - reflexivity.
Defined.

(** C10, as stated, fails: with the empty image staged and a draft of two
    spaces, an attachment is pending and the draft is non-empty
    whitespace, yet the submit does not proceed. *)
Lemma sends_untrimmed_fails_on_empty_payload :
  input emptyStagedBlank <> [] /\
  forallb isWhiteSpace (input emptyStagedBlank) = true /\
  has_attachment emptyStagedBlank [] (lit "blob:http://localhost:5173/0") /\
  render_after emptyStagedBlank (sendMessage emptyStagedBlank) =
    Normal emptyStagedBlank /\
  (forall env, requests env (sendMessage emptyStagedBlank) = []) /\
  ~ sends_untrimmed emptyStagedBlank.
Proof.
  split; [vm_compute; discriminate |].
  split; [reflexivity |].
  split; [split; reflexivity |].
  split; [reflexivity |].
  split; [reflexivity |].
  intros [H _]. discriminate H.
Qed.

(** C10, amended. With a draft that is non-empty but all whitespace and a
    pending attachment whose base64 payload is a non-empty string, the
    submit proceeds (trimming serves the guard only): the user turn's text
    and the payload's [text] are the untrimmed whitespace string, neither
    the empty string nor [null]. *)
Theorem sendMessage_whitespace_draft
    (s : AppState) (b64 preview : jsstring) :
  input s <> [] ->
  forallb isWhiteSpace (input s) = true ->
  has_attachment s b64 preview ->
  b64 <> [] ->
  trim (input s) = [] /\ sends_untrimmed s.
Proof.
  intros Hin Hws [Hb Hp] Hne.
  split; [apply trim_whitespace; exact Hws |].
  apply truthy_str in Hne. apply truthy_str in Hin.
  assert (Hgo : proceeds s = true).
  { apply proceeds_image. rewrite Hb. exact Hne. }
  split; [| split].
  - rewrite (sendMessage_render s Hgo). unfold userTurn, or_.
    rewrite Hin. reflexivity.
  - intro E. injection E as E. rewrite E in Hin. discriminate Hin.
  - intro env. exists (request s). split.
    + apply sendMessage_requests. exact Hgo.
    + simpl. unfold or_. rewrite Hin. split; [reflexivity | discriminate].
Qed.

Lemma sendMessage_whitespace_draft_witness :
  trim (input pngStagedBlank) = [] /\ sends_untrimmed pngStagedBlank.
Proof.
  apply (sendMessage_whitespace_draft pngStagedBlank
           (lit "iVBORw0KGgo=") (lit "blob:http://localhost:5173/1")).
  - vm_compute. discriminate.
  - reflexivity.
  - split; reflexivity.
  - vm_compute. discriminate.
Defined.

(* ================================================================== *)
(** * When the request settles *)
(* ================================================================== *)

(** The continuation that waits for the [fetch] of a submit. *)
Lemma sendMessage_pending (s : AppState) :
  proceeds s = true ->
  exists k,
    pending_fetch (sendMessage s) = Some (endpoint, request s, k) /\
    (forall e, k (Rejected e) =
       (ConsoleError (lit "Backend error:") e ;;
        SetMessages (append errorTurn) ;;
        SetIsThinking false ;; Return)) /\
    (forall res, exists k',
       k (Fulfilled res) = Await (res_json res) k' /\
       (forall data, k' (Fulfilled data) =
          (SetMessages (appendAnswer data) ;; SetIsThinking false ;; Return)) /\
       (forall e, k' (Rejected e) =
          (ConsoleError (lit "Backend error:") e ;;
           SetMessages (append errorTurn) ;;
           SetIsThinking false ;; Return))).
Proof.
  intro H. rewrite (sendMessage_runs s H). eexists. split.
  - reflexivity.
  - split.
    + intros. reflexivity.
    + intro res. eexists. split; [reflexivity |].
      split; intros; reflexivity.
Qed.

(** C1, as stated, fails: a non-2xx response with a JSON body is a request
    failure, yet the continuation takes the success branch and appends an
    assistant turn whose text is the body's [answer] (here [undefined]),
    not the error text. *)
Lemma error_status_not_surfaced :
  exists k,
    pending_fetch (sendMessage draft_hello) =
      Some (endpoint, request draft_hello, k) /\
    request_failure (Fulfilled serverError) /\
    finishes_with
      (fun s r => r = Normal (replied s (Turn.mk assistant VUndefined VNull)))
      (k (Fulfilled serverError)) /\
    ~ surfaces_error k (Fulfilled serverError).
Proof.
  eexists. split; [reflexivity |].
  split; [apply non_2xx_status; right; simpl; lia |].
  split.
  - simpl. intros o Ho. subst o. simpl. split; [reflexivity |].
    intro s. reflexivity.
  - unfold surfaces_error. simpl. intro H.
    specialize (H (json serverError) eq_refl). simpl in H.
    destruct H as [_ H]. specialize (H initial).
    discriminate H.
Qed.

(** C1, amended. For every submitted request whose [fetch] rejects
    (network unreachable) or whose response body is not JSON (whatever the
    status), exactly one assistant turn is appended, with text
    ["Error contacting backend."] and no image, and the thinking flag
    returns to false. *)
Theorem backend_failure_surfaces (s : AppState) (o : outcome Response) :
  proceeds s = true ->
  call_throws o ->
  Turn.text errorTurn = VStr (lit "Error contacting backend.") /\
  Turn.image errorTurn = VNull /\
  exists k,
    pending_fetch (sendMessage s) = Some (endpoint, request s, k) /\
    surfaces_error k o.
Proof.
  intros Hgo Ho.
  split; [reflexivity |]. split; [reflexivity |].
  destruct (sendMessage_pending s Hgo) as (k & Hk & Hrej & Hful).
  exists k. split; [exact Hk |].
  unfold surfaces_error. destruct Ho as [e | res e He].
  - rewrite Hrej. simpl. split; [reflexivity |]. intro s2. reflexivity.
  - destruct (Hful res) as (k' & Hres & _ & Herr).
    rewrite Hres. simpl. intros o Ho. rewrite Ho, He, Herr. simpl.
    split; [reflexivity |]. intro s2. reflexivity.
Qed.

Lemma backend_failure_surfaces_witness :
  Turn.text errorTurn = VStr (lit "Error contacting backend.") /\
  Turn.image errorTurn = VNull /\
  exists k,
    pending_fetch (sendMessage draft_hello) =
      Some (endpoint, request draft_hello, k) /\
    surfaces_error k (Fulfilled badGateway).
Proof.
  apply (backend_failure_surfaces draft_hello (Fulfilled badGateway)).
  - reflexivity.
  - apply (json_rejects badGateway SyntaxError). reflexivity.
Defined.

(** C8. For every submitted request that settles with a JSON body whose
    [answer] is the string [X], exactly one assistant turn is appended,
    with text [X] and no image, and the thinking flag returns to false. *)
Theorem backend_answer_appended
    (s : AppState) (res : Response)
    (props : list (jsstring * value)) (X : jsstring) :
  proceeds s = true ->
  json res = Fulfilled (VObj props) ->
  lookup (lit "answer") props = VStr X ->
  exists k,
    pending_fetch (sendMessage s) = Some (endpoint, request s, k) /\
    finishes_with
      (fun s2 r =>
         r = Normal (replied s2 (Turn.mk assistant (VStr X) VNull)))
      (k (Fulfilled res)).
Proof.
  intros Hgo Hj Ha.
  destruct (sendMessage_pending s Hgo) as (k & Hk & _ & Hful).
  exists k. split; [exact Hk |].
  destruct (Hful res) as (k' & Hres & Hdata & _).
  rewrite Hres. simpl. intros o Ho. rewrite Ho, Hj, Hdata. simpl.
  split; [reflexivity |]. intro s2.
  unfold render_after. simpl. unfold appendAnswer. simpl.
  rewrite Ha. reflexivity.
Qed.

Lemma backend_answer_appended_witness :
  exists k,
    pending_fetch (sendMessage draft_hello) =
      Some (endpoint, request draft_hello, k) /\
    finishes_with
      (fun s2 r =>
         r = Normal
               (replied s2 (Turn.mk assistant (VStr (lit "Oak trees.")) VNull)))
      (k (Fulfilled okReply)).
Proof.
  apply (backend_answer_appended draft_hello okReply
           [(lit "answer", VStr (lit "Oak trees."))] (lit "Oak trees.")).
  - reflexivity.
  - reflexivity.
  - reflexivity.
Defined.

(* ================================================================== *)
(** * Invariants of the component over time *)
(* ================================================================== *)

Section Invariants.

Variable I : AppState -> Prop.

Lemma parked_keep (t : task) :
  resumptions_keep I t ->
  Forall (waiting_keeps I) (parked (snd (run_sync t))).
Proof.
  induction t as [| e | a k IH | R p k IH]; simpl; intro H.
  - constructor.
  - constructor.
  - destruct (run_sync k) as [batch st]. simpl in *. exact (IH H).
  - constructor; [| constructor]. exact H.
Qed.

Lemma advance_ok (s : AppState) (waiting : list suspended) (t : task) :
  I s -> Forall (waiting_keeps I) waiting -> keeps I t ->
  world_ok I (advance s waiting t).
Proof.
  intros Hs Hw [Hseg Hres]. unfold advance.
  destruct (render_after s t) as [s' |] eqn:E; simpl; [| exact Logic.I].
  split.
  - exact (Hseg s s' Hs E).
  - apply Forall_app. split; [exact Hw | exact (parked_keep t Hres)].
Qed.

Hypothesis initial_ok : I initial.
Hypothesis handlers_keep : forall s ev, keeps I (handler s ev).

Lemma step_ok (w w' : World) : world_ok I w -> step w w' -> world_ok I w'.
Proof.
  intros Hw Hstep. destruct Hstep as [s waiting ev _ | s b a R p k o Ho].
  - destruct Hw as [Hs Hws]. apply advance_ok; auto.
  - destruct Hw as [Hs Hws].
    apply Forall_app in Hws as [Hb Hrest].
    inversion Hrest as [| w0 l0 Hk Ha]; subst.
    apply advance_ok.
    + exact Hs.
    + apply Forall_app. split; assumption.
    + exact (Hk o Ho).
Qed.

Lemma reachable_ok (w : World) : reachable w -> world_ok I w.
Proof.
  induction 1 as [| w w' _ IH Hstep].
  - split; [exact initial_ok | constructor].
  - exact (step_ok w w' IH Hstep).
Qed.

End Invariants.

(* ================================================================== *)
(** * The attachment slot *)
(* ================================================================== *)

Lemma paired_same_slot (s s' : AppState) :
  imageBase64 s' = imageBase64 s ->
  imagePreview s' = imagePreview s ->
  paired s -> paired s'.
Proof.
  intros Hb Hp [[H1 H2] | (f & r & Hf & H1 & H2)].
  - left. split; congruence.
  - right. exists f, r. repeat split; congruence.
Qed.

Lemma paired_detached (s : AppState) : paired (detached s).
Proof. left. split; reflexivity. Qed.

Lemma paired_attached (s : AppState) (f : File.t) (r : jsstring) :
  File.dataURL f = Fulfilled r -> paired (attached s f r).
Proof. intro H. right. exists f, r. repeat split. exact H. Qed.

Lemma index_not_null (arr : list jsstring) (i : nat) : index arr i <> VNull.
Proof. unfold index. destruct (nth_error arr i); discriminate. Qed.

(** In a paired state one cell is [null] exactly when the other is. *)
Lemma paired_null_together (s : AppState) :
  paired s -> (imageBase64 s = VNull <-> imagePreview s = VNull).
Proof.
  intros [[H1 H2] | (f & r & _ & H1 & H2)].
  - split; intros _; assumption.
  - split; intro H.
    + rewrite H1 in H. destruct (index_not_null _ _ H).
    + rewrite H2 in H. discriminate H.
Qed.

Lemma handleFile_image (f : File.t) :
  startsWith (File.type f) (lit "image/") = true ->
  handleFile (Some f) = ingest f.
Proof. intro H. unfold handleFile. rewrite H. reflexivity. Qed.

Lemma handleFile_other (file : option File.t) :
  file = None \/
  (exists f, file = Some f /\
             startsWith (File.type f) (lit "image/") = false) ->
  handleFile file = Return.
Proof.
  intros [H | (f & H & Ht)]; subst file; simpl.
  - reflexivity.
  - rewrite Ht. reflexivity.
Qed.

Lemma handlePaste_image (items : list Item.t) (item : Item.t) (f : File.t) :
  find (fun i => startsWith (Item.type i) (lit "image/")) items = Some item ->
  Item.getAsFile item = Some f ->
  handlePaste items = ingest f.
Proof. intros Hi Hf. unfold handlePaste. rewrite Hi, Hf. reflexivity. Qed.

(** When the read of [f] ends, both cells are overwritten with [f]'s. *)
Lemma ingest_finishes (f : File.t) (result : jsstring) :
  File.dataURL f = Fulfilled result ->
  finishes_with (fun s r => r = Normal (attached s f result)) (ingest f).
Proof.
  intro H. simpl. intros o Ho. rewrite Ho, H. simpl.
  split; [reflexivity |]. intro s. reflexivity.
Qed.

Lemma ingest_keeps (f : File.t) : keeps paired (ingest f).
Proof.
  split.
  - intros s s' Hs E. injection E as <-. exact Hs.
  - simpl. intros o Ho. rewrite Ho.
    destruct (File.dataURL f) as [r | e] eqn:E; simpl; split;
      try exact Logic.I.
    + intros s s' _ E'. injection E' as <-.
      exact (paired_attached s f r E).
    + intros s s' Hs E'. injection E' as <-. exact Hs.
Qed.

Lemma Return_keeps : keeps paired Return.
Proof.
  split; [| exact Logic.I].
  intros s s' Hs E. injection E as <-. exact Hs.
Qed.

Lemma sendMessage_keeps (s : AppState) : keeps paired (sendMessage s).
Proof.
  destruct (proceeds s) eqn:Hgo.
  - rewrite (sendMessage_runs s Hgo). split.
    + intros s0 s' _ E. injection E as <-. left. split; reflexivity.
    + simpl. intros o _. destruct o as [res | e]; simpl.
      * split.
        { intros s0 s' Hs E. injection E as <-. exact Hs. }
        intros o Ho. rewrite Ho. destruct (json res) as [data | e]; simpl;
          (split; [| exact Logic.I]); intros s0 s' Hs E;
          unfold render_after in E; simpl in E.
        -- destruct (appendAnswer data (messages s0)); [| discriminate E].
           injection E as <-. revert Hs. apply paired_same_slot; reflexivity.
        -- injection E as <-. revert Hs. apply paired_same_slot; reflexivity.
      * split; [| exact Logic.I]. intros s0 s' Hs E. injection E as <-.
        revert Hs. apply paired_same_slot; reflexivity.
  - rewrite (sendMessage_skips s Hgo). exact Return_keeps.
Qed.

Lemma handlers_keep_paired (s : AppState) (ev : event) :
  keeps paired (handler s ev).
Proof.
  destruct ev as [v | key shift | | items | file |]; simpl.
  - split; [| exact Logic.I]. intros s0 s' Hs E. injection E as <-.
    revert Hs. apply paired_same_slot; reflexivity.
  - unfold onKeyDown.
    destruct (str_eqb key (lit "Enter") && negb shift);
      [apply sendMessage_keeps | exact Return_keeps].
  - apply sendMessage_keeps.
  - unfold handlePaste.
    destruct (find _ items) as [item |]; [| exact Return_keeps].
    destruct (Item.getAsFile item) as [f |]; [apply (ingest_keeps f) |].
    split; [| exact Logic.I]. intros s0 s' Hs E. injection E as <-. exact Hs.
  - destruct file as [f |]; simpl; [| exact Return_keeps].
    destruct (startsWith (File.type f) (lit "image/"));
      [apply (ingest_keeps f) | exact Return_keeps].
  - split; [| exact Logic.I]. intros s0 s' _ E. injection E as <-.
    exact (paired_detached s0).
Qed.

(** Every state the component can reach is paired. *)
Lemma reachable_paired (w : World) (s : AppState) :
  reachable w -> state_of w = Some s -> paired s.
Proof.
  intros Hr Hs.
  pose proof (reachable_ok paired (or_introl (conj eq_refl eq_refl))
                handlers_keep_paired w Hr) as Hok.
  destruct w as [s0 waiting |]; [| discriminate Hs].
  injection Hs as <-. exact (proj1 Hok).
Qed.

(** C5. The component has one attachment slot.  When the read of a newly
    chosen or pasted image ends, both cells of the slot are overwritten
    with that image's base64 payload and preview reference, whatever was
    pending before; and in every reachable state the two cells are either
    both [null] or both taken from one and the same file, so two
    attachments never coexist. *)
Theorem single_attachment_slot (f : File.t) (result : jsstring) :
  File.dataURL f = Fulfilled result ->
  (startsWith (File.type f) (lit "image/") = true ->
   finishes_with (fun s r => r = Normal (attached s f result))
                 (handleFile (Some f))) /\
  (forall items item,
     find (fun i => startsWith (Item.type i) (lit "image/")) items
       = Some item ->
     Item.getAsFile item = Some f ->
     finishes_with (fun s r => r = Normal (attached s f result))
                   (handlePaste items)) /\
  (forall w s, reachable w -> state_of w = Some s -> paired s).
Proof.
  intro H. split; [| split].
  - intro Ht. rewrite (handleFile_image f Ht).
    exact (ingest_finishes f result H).
  - intros items item Hi Hf. rewrite (handlePaste_image items item f Hi Hf).
    exact (ingest_finishes f result H).
  - exact reachable_paired.
Qed.

Lemma single_attachment_slot_witness :
  finishes_with
    (fun s r =>
       r = Normal (attached s leafPng (lit "data:image/png;base64,iVBORw0KGgo=")))
    (handlePaste [Item.mk (lit "text/plain") None;
                  Item.mk (lit "image/png") (Some leafPng)]) /\
  attached pngStaged leafPng (lit "data:image/png;base64,iVBORw0KGgo=")
    = pngStaged.
Proof.
  split.
  - apply (proj1 (proj2 (single_attachment_slot leafPng
                           (lit "data:image/png;base64,iVBORw0KGgo=") eq_refl))
             [Item.mk (lit "text/plain") None;
              Item.mk (lit "image/png") (Some leafPng)]
             (Item.mk (lit "image/png") (Some leafPng))).
    + reflexivity.
    + reflexivity.
  - reflexivity.
Defined.

(** C6. Clicking the remove control, which is on screen in a reachable
    state whose preview is set, runs as one synchronous segment and leads
    to the state with both attachment cells [null] and the turns, the
    draft and the thinking flag as they were; nothing waiting is
    disturbed.  Before it, as in every reachable state, one cell is [null]
    exactly when the other is. *)
Theorem remove_clears_both (s : AppState) (waiting : list suspended) :
  reachable (Mounted s waiting) ->
  enabled s RemoveClick = true ->
  snd (run_sync (handler s RemoveClick)) = Completed /\
  advance s waiting (handler s RemoveClick) = Mounted (detached s) waiting /\
  reachable (Mounted (detached s) waiting) /\
  (imageBase64 s = VNull <-> imagePreview s = VNull) /\
  imageBase64 (detached s) = VNull /\
  imagePreview (detached s) = VNull /\
  messages (detached s) = messages s /\
  input (detached s) = input s /\
  isThinking (detached s) = isThinking s.
Proof.
  intros Hr He.
  assert (Hadv : advance s waiting (handler s RemoveClick)
                 = Mounted (detached s) waiting).
  { unfold advance. simpl. rewrite app_nil_r. reflexivity. }
  split; [reflexivity |].
  split; [exact Hadv |].
  split.
  - rewrite <- Hadv. eapply reach_step; [exact Hr |].
    apply step_event. exact He.
  - split.
    + apply paired_null_together.
      exact (reachable_paired (Mounted s waiting) s Hr eq_refl).
    + repeat split.
Qed.

Lemma remove_clears_both_witness :
  advance emptyStaged [] (handler emptyStaged RemoveClick)
    = Mounted initial [].
Proof.
  exact (proj1 (proj2 (remove_clears_both emptyStaged []
                         emptyStaged_reachable eq_refl))).
Defined.

(** C9. When the file picker yields no file, or a file whose declared
    media type does not begin with ["image/"], [handleFile] leaves the
    component as it was: attachment, draft, turns and thinking flag keep
    their values (so no error turn appears) and nothing is left waiting. *)
Theorem non_image_file_ignored
    (s : AppState) (waiting : list suspended) (file : option File.t) :
  file = None \/
  (exists f, file = Some f /\
             startsWith (File.type f) (lit "image/") = false) ->
  advance s waiting (handler s (FileChosen file)) = Mounted s waiting.
Proof.
  intro H. simpl. rewrite (handleFile_other file H).
  unfold advance. simpl. rewrite app_nil_r. reflexivity.
Qed.

Lemma non_image_file_ignored_witness :
  advance pngStaged [] (handler pngStaged (FileChosen (Some notesPdf)))
    = Mounted pngStaged [].
Proof.
  apply (non_image_file_ignored pngStaged [] (Some notesPdf)).
  right. exists notesPdf. split; reflexivity.
Defined.

(* ================================================================== *)
(** * Image ingestion *)
(* ================================================================== *)

Lemma split_no_sep (sep : N) (s : jsstring) :
  ~ In sep s -> split sep s = [s].
Proof.
  induction s as [| c s IH]; simpl; intro H; [reflexivity |].
  destruct (N.eqb_spec c sep) as [E | _].
  - destruct H. left. exact E.
  - rewrite IH; [reflexivity |]. intro Hin. apply H. right. exact Hin.
Qed.

Lemma split_at_sep (sep : N) (h b : jsstring) :
  ~ In sep h -> split sep (h ++ sep :: b) = h :: split sep b.
Proof.
  induction h as [| c h IH]; simpl; intro H.
  - rewrite N.eqb_refl. reflexivity.
  - destruct (N.eqb_spec c sep) as [E | _].
    + destruct H. left. exact E.
    + rewrite IH; [reflexivity |]. intro Hin. apply H. right. exact Hin.
Qed.

Lemma index_after_comma (header b64 : jsstring) :
  ~ In comma header -> ~ In comma b64 ->
  index (split comma (header ++ comma :: b64)) 1 = VStr b64.
Proof.
  intros Hh Hb. rewrite (split_at_sep comma header b64 Hh).
  rewrite (split_no_sep comma b64 Hb). reflexivity.
Qed.

Lemma index_without_comma (result : jsstring) :
  ~ In comma result -> index (split comma result) 1 = VUndefined.
Proof. intro H. rewrite (split_no_sep comma result H). reflexivity. Qed.

(** X1. When an image file is chosen and its reader yields a data URL
    [header,b64] (no comma inside either part), the state after the read
    holds exactly [b64] as payload, the data-URL prefix stripped, and the
    file's object URL as preview; turns, draft and thinking flag are as
    they were when the read ended. *)
Theorem handleFile_stores_base64 (f : File.t) (header b64 : jsstring) :
  startsWith (File.type f) (lit "image/") = true ->
  File.dataURL f = Fulfilled (header ++ comma :: b64) ->
  ~ In comma header ->
  ~ In comma b64 ->
  finishes_with
    (fun s r =>
       r = Normal {| messages := messages s;
                     input := input s;
                     isThinking := isThinking s;
                     imageBase64 := VStr b64;
                     imagePreview := VStr (File.objectURL f) |})
    (handleFile (Some f)).
Proof.
  intros Ht Hf Hh Hb. rewrite (handleFile_image f Ht).
  pose proof (ingest_finishes f _ Hf) as H.
  unfold attached in H. rewrite (index_after_comma header b64 Hh Hb) in H.
  exact H.
Qed.

Lemma handleFile_stores_base64_witness :
  finishes_with
    (fun s r =>
       r = Normal {| messages := messages s;
                     input := input s;
                     isThinking := isThinking s;
                     imageBase64 := VStr (lit "iVBORw0KGgo=");
                     imagePreview := VStr (File.objectURL leafPng) |})
    (handleFile (Some leafPng)).
Proof.
  apply (handleFile_stores_base64 leafPng (lit "data:image/png;base64")
           (lit "iVBORw0KGgo=")).
  - reflexivity.
  - reflexivity.
  - vm_compute. intuition discriminate.
  - vm_compute. intuition discriminate.
Defined.

(** X2. When the reader's result holds no comma, [split(",")[1]] is
    [undefined]: the state after the read has [undefined] as payload while
    the preview is set. *)
Theorem handleFile_without_comma (f : File.t) (result : jsstring) :
  startsWith (File.type f) (lit "image/") = true ->
  File.dataURL f = Fulfilled result ->
  ~ In comma result ->
  finishes_with
    (fun s r =>
       r = Normal {| messages := messages s;
                     input := input s;
                     isThinking := isThinking s;
                     imageBase64 := VUndefined;
                     imagePreview := VStr (File.objectURL f) |})
    (handleFile (Some f)).
Proof.
  intros Ht Hf Hc. rewrite (handleFile_image f Ht).
  pose proof (ingest_finishes f _ Hf) as H.
  unfold attached in H. rewrite (index_without_comma result Hc) in H.
  exact H.
Qed.

Lemma handleFile_without_comma_witness :
  finishes_with
    (fun s r =>
       r = Normal {| messages := messages s;
                     input := input s;
                     isThinking := isThinking s;
                     imageBase64 := VUndefined;
                     imagePreview := VStr (File.objectURL barePng) |})
    (handleFile (Some barePng)).
Proof.
  apply (handleFile_without_comma barePng (lit "data:")).
  - reflexivity.
  - reflexivity.
  - vm_compute. intuition discriminate.
Defined.

Lemma find_first {A : Type} (f : A -> bool) (pre post : list A) (x : A) :
  Forall (fun a => f a = false) pre -> f x = true ->
  find f (pre ++ x :: post) = Some x.
Proof.
  induction pre as [| a pre IH]; simpl; intros Hpre Hx.
  - rewrite Hx. reflexivity.
  - inversion Hpre as [| a' l' Ha Hrest]; subst.
    rewrite Ha. exact (IH Hrest Hx).
Qed.

Lemma find_none {A : Type} (f : A -> bool) (l : list A) :
  Forall (fun a => f a = false) l -> find f l = None.
Proof.
  induction l as [| a l IH]; simpl; intro H; [reflexivity |].
  inversion H as [| a' l' Ha Hrest]; subst.
  rewrite Ha. exact (IH Hrest).
Qed.

(** X3. A paste takes the first clipboard item whose type begins with
    ["image/"]: the items before it and after it play no part. *)
Theorem handlePaste_first_image
    (pre post : list Item.t) (item : Item.t) :
  Forall (fun i => image_item i = false) pre ->
  image_item item = true ->
  handlePaste (pre ++ item :: post) = handlePaste [item].
Proof.
  intros Hpre Hitem. unfold handlePaste.
  change (fun i : Item.t => startsWith (Item.type i) (lit "image/"))
    with image_item.
  rewrite (find_first image_item pre post item Hpre Hitem).
  simpl. rewrite Hitem. reflexivity.
Qed.

Lemma handlePaste_first_image_witness :
  handlePaste ([Item.mk (lit "text/plain") None]
               ++ Item.mk (lit "image/png") (Some leafPng)
               :: [Item.mk (lit "image/gif") (Some emptyPng)])
  = handlePaste [Item.mk (lit "image/png") (Some leafPng)].
Proof.
  apply (handlePaste_first_image [Item.mk (lit "text/plain") None]).
  - constructor; [reflexivity | constructor].
  - reflexivity.
Defined.

(** X4. A paste with no item whose type begins with ["image/"] leaves
    the component as it was, and nothing is left waiting. *)
Theorem handlePaste_without_image
    (s : AppState) (waiting : list suspended) (items : list Item.t) :
  Forall (fun i => image_item i = false) items ->
  advance s waiting (handler s (PasteEvent items)) = Mounted s waiting.
Proof.
  intro H. simpl. unfold handlePaste.
  change (fun i : Item.t => startsWith (Item.type i) (lit "image/"))
    with image_item.
  rewrite (find_none image_item items H).
  unfold advance. simpl. rewrite app_nil_r. reflexivity.
Qed.

Lemma handlePaste_without_image_witness :
  advance pngStaged []
    (handler pngStaged (PasteEvent [Item.mk (lit "text/plain") None]))
  = Mounted pngStaged [].
Proof.
  apply (handlePaste_without_image pngStaged []).
  constructor; [reflexivity | constructor].
Defined.

(** X5. When the read of a chosen or pasted image fails, the handler
    ends in a rejection without calling a setter: the state, a pending
    attachment included, is what it was when the read ended. *)
Theorem failed_read_changes_nothing (f : File.t) (e : error) (t : task) :
  File.dataURL f = Rejected e ->
  (t = handleFile (Some f) /\
   startsWith (File.type f) (lit "image/") = true) \/
  (exists items item,
     t = handlePaste items /\
     find image_item items = Some item /\
     Item.getAsFile item = Some f) ->
  exists k,
    t = Await (readAsDataURL f) k /\
    forall o, settles (readAsDataURL f) o ->
      snd (run_sync (k o)) = Failed e /\
      forall s waiting, advance s waiting (k o) = Mounted s waiting.
Proof.
  intros H Ht.
  assert (E : t = ingest f).
  { destruct Ht as [[-> Hty] | (items & item & -> & Hi & Hf)].
    - exact (handleFile_image f Hty).
    - exact (handlePaste_image items item f Hi Hf). }
  subst t. eexists. split; [reflexivity |].
  intros o Ho. simpl in Ho. rewrite Ho, H. simpl.
  split; [reflexivity |]. intros s waiting.
  unfold advance. simpl. rewrite app_nil_r. reflexivity.
Qed.

Lemma failed_read_changes_nothing_witness :
  exists k,
    handleFile (Some brokenPng) = Await (readAsDataURL brokenPng) k /\
    forall o, settles (readAsDataURL brokenPng) o ->
      snd (run_sync (k o)) = Failed ReadError /\
      forall s waiting, advance s waiting (k o) = Mounted s waiting.
Proof.
  apply (failed_read_changes_nothing brokenPng ReadError).
  - reflexivity.
  - left. split; reflexivity.
Defined.

(** X6. When the first image item of a paste yields no file
    ([getAsFile()] is [null]), the handler rejects with a [TypeError]
    whatever the environment does, and the component stays as it was. *)
Theorem handlePaste_without_file
    (s : AppState) (waiting : list suspended)
    (items : list Item.t) (item : Item.t) :
  find image_item items = Some item ->
  Item.getAsFile item = None ->
  advance s waiting (handler s (PasteEvent items)) = Mounted s waiting /\
  forall env, rejection env (handlePaste items) = Some TypeError.
Proof.
  intros Hi Hf. simpl. unfold handlePaste.
  change (fun i : Item.t => startsWith (Item.type i) (lit "image/"))
    with image_item.
  rewrite Hi, Hf. split.
  - unfold advance. simpl. rewrite app_nil_r. reflexivity.
  - reflexivity.
Qed.

Lemma handlePaste_without_file_witness :
  advance pngStaged []
    (handler pngStaged (PasteEvent [Item.mk (lit "image/png") None]))
  = Mounted pngStaged [] /\
  forall env,
    rejection env (handlePaste [Item.mk (lit "image/png") None])
    = Some TypeError.
Proof.
  apply (handlePaste_without_file pngStaged []
           [Item.mk (lit "image/png") None]
           (Item.mk (lit "image/png") None)).
  - reflexivity.
  - reflexivity.
Defined.

(* ================================================================== *)
(** * More on submitting *)
(* ================================================================== *)

Lemma str_eqb_eq (a b : jsstring) : str_eqb a b = true -> a = b.
Proof.
  revert b. induction a as [| c a IH]; intros [| d b]; simpl; intro H;
    try reflexivity; try discriminate H.
  apply andb_true_iff in H as [Hc Hr].
  apply N.eqb_eq in Hc. rewrite Hc, (IH b Hr). reflexivity.
Qed.

Lemma str_eqb_neq (a b : jsstring) : a <> b -> str_eqb a b = false.
Proof.
  intro H. destruct (str_eqb a b) eqn:E; [| reflexivity].
  destruct (H (str_eqb_eq a b E)).
Qed.

(** X7. The key handler of the text box submits on Enter without Shift
    and does nothing on any other key, nor on Enter with Shift. *)
Theorem onKeyDown_plain_enter_only
    (s : AppState) (waiting : list suspended)
    (key : jsstring) (shiftKey : bool) :
  (key = lit "Enter" /\ shiftKey = false ->
   handler s (KeyDown key shiftKey) = handler s SendClick) /\
  (key <> lit "Enter" \/ shiftKey = true ->
   advance s waiting (handler s (KeyDown key shiftKey))
   = Mounted s waiting).
Proof.
  split.
  - intros [-> ->]. reflexivity.
  - intro H. simpl. unfold onKeyDown.
    assert (E : str_eqb key (lit "Enter") && negb shiftKey = false).
    { destruct H as [H | ->].
      - rewrite (str_eqb_neq key (lit "Enter") H). reflexivity.
      - apply andb_false_r. }
    rewrite E. unfold advance. simpl. rewrite app_nil_r. reflexivity.
Qed.

Lemma onKeyDown_plain_enter_only_witness :
  advance draft_hello [] (handler draft_hello (KeyDown (lit "Enter") true))
  = Mounted draft_hello [].
Proof.
  apply (proj2 (onKeyDown_plain_enter_only draft_hello []
                  (lit "Enter") true)).
  right. reflexivity.
Defined.

(** X8. The promise of [sendMessage] never rejects: however [fetch] and
    [res.json()] end, the [catch] block takes every throw of the [try]
    block and the handler runs to its end. *)
Theorem sendMessage_never_rejects (env : oracle) (s : AppState) :
  rejection env (sendMessage s) = None.
Proof.
  destruct (proceeds s) eqn:Hgo.
  - rewrite (sendMessage_runs s Hgo). simpl.
    destruct (env Response (fetch endpoint (request s))) as [res | e]; simpl.
    + destruct (env value (res_json res)); reflexivity.
    + reflexivity.
  - rewrite (sendMessage_skips s Hgo). reflexivity.
Qed.

(** X9. Every request the component makes is a POST to the query
    endpoint with a JSON content type and the fixed session id; its
    [text] is [null] or the draft as typed, its [image_base64] is [null]
    or the stored payload, and the two are never both [null]. *)
Theorem request_shape
    (env : oracle) (s : AppState) (url : jsstring) (init : RequestInit) :
  In (url, init) (requests env (sendMessage s)) ->
  url = lit "http://localhost:8000/query" /\
  method init = lit "POST" /\
  headers init = [(lit "Content-Type", lit "application/json")] /\
  Payload.session_id (body init) = lit "sap-session-1" /\
  (Payload.text (body init) = VNull \/
   Payload.text (body init) = VStr (input s) /\ input s <> []) /\
  (Payload.image_base64 (body init) = VNull \/
   Payload.image_base64 (body init) = imageBase64 s /\
   truthy (imageBase64 s) = true) /\
  (Payload.text (body init) <> VNull \/
   Payload.image_base64 (body init) <> VNull).
Proof.
  intro Hin. destruct (proceeds s) eqn:Hgo.
  - rewrite (sendMessage_requests env s Hgo) in Hin.
    destruct Hin as [E | []]. injection E as <- <-.
    repeat (split; [reflexivity |]). simpl. unfold or_.
    split; [| split].
    + destruct (truthy (VStr (input s))) eqn:Ht; [right | left; reflexivity].
      split; [reflexivity | apply truthy_str; exact Ht].
    + destruct (truthy (imageBase64 s)); [right | left]; auto.
    + unfold proceeds in Hgo. apply orb_true_iff in Hgo as [Ht | Hb].
      * left. apply truthy_str in Ht. apply trim_nonempty in Ht.
        apply truthy_str in Ht. rewrite Ht. discriminate.
      * right. rewrite Hb. destruct (imageBase64 s); discriminate.
  - rewrite (sendMessage_skips s Hgo) in Hin. destruct Hin.
Qed.

Lemma request_shape_witness :
  Payload.text (body (request pngStagedBlank)) <> VNull \/
  Payload.image_base64 (body (request pngStagedBlank)) <> VNull.
Proof.
  apply (request_shape offline pngStagedBlank endpoint
           (request pngStagedBlank)).
  left. reflexivity.
Defined.

(** X10. Submitting again right after a submit does nothing: in the
    state a submit leaves, [sendMessage] returns at its guard, so no
    second turn is appended and no second request is made. *)
Theorem second_submit_is_noop
    (s s' : AppState) (waiting : list suspended) :
  proceeds s = true ->
  render_after s (sendMessage s) = Normal s' ->
  advance s' waiting (sendMessage s') = Mounted s' waiting /\
  forall env, requests env (sendMessage s') = [].
Proof.
  intros Hgo Hr. rewrite (sendMessage_render s Hgo) in Hr.
  injection Hr as <-.
  assert (Hp : proceeds (submitted s (userTurn s)) = false)
    by reflexivity.
  rewrite (sendMessage_skips _ Hp). split.
  - unfold advance. simpl. rewrite app_nil_r. reflexivity.
  - reflexivity.
Qed.

Lemma second_submit_is_noop_witness :
  advance (submitted draft_hello (userTurn draft_hello)) []
          (sendMessage (submitted draft_hello (userTurn draft_hello)))
  = Mounted (submitted draft_hello (userTurn draft_hello)) [] /\
  forall env,
    requests env (sendMessage (submitted draft_hello (userTurn draft_hello)))
    = [].
Proof.
  apply (second_submit_is_noop draft_hello).
  - reflexivity.
  - reflexivity.
Defined.

(** X11. When the stored payload is falsy (the empty string or
    [undefined]) and the draft is not blank, the submit proceeds on the
    draft alone: the user turn still shows the staged preview, but the
    request carries [image_base64] [null]. *)
Theorem falsy_payload_not_sent (s : AppState) :
  trim (input s) <> [] ->
  truthy (imageBase64 s) = false ->
  render_after s (sendMessage s) =
    Normal (submitted s (Turn.mk user (VStr (input s)) (imagePreview s))) /\
  forall env, exists init,
    requests env (sendMessage s) = [(endpoint, init)] /\
    Payload.text (body init) = VStr (input s) /\
    Payload.image_base64 (body init) = VNull.
Proof.
  intros Ht Hb.
  pose proof (proceeds_text s Ht) as Hgo.
  pose proof (trim_nonempty (input s) Ht) as Hin.
  apply truthy_str in Hin. split.
  - rewrite (sendMessage_render s Hgo). unfold userTurn, or_.
    rewrite Hin. reflexivity.
  - intro env. exists (request s). split.
    + apply sendMessage_requests. exact Hgo.
    + simpl. unfold or_. rewrite Hin, Hb. split; reflexivity.
Qed.

Lemma falsy_payload_not_sent_witness :
  render_after emptyStagedAsking (sendMessage emptyStagedAsking) =
    Normal (submitted emptyStagedAsking
              (Turn.mk user (VStr (lit "what is this?"))
                       (VStr (lit "blob:http://localhost:5173/0")))) /\
  forall env, exists init,
    requests env (sendMessage emptyStagedAsking) = [(endpoint, init)] /\
    Payload.text (body init) = VStr (lit "what is this?") /\
    Payload.image_base64 (body init) = VNull.
Proof.
  apply (falsy_payload_not_sent emptyStagedAsking).
  - vm_compute. discriminate.
  - reflexivity.
Defined.

(** X21. For every submit that proceeds, the user turn carries the
    draft exactly as typed (the fallback of [input || ""] never changes
    it) and the preview as staged, whatever the payload cell holds. *)
Theorem user_turn_is_draft (s : AppState) :
  proceeds s = true ->
  render_after s (sendMessage s) =
    Normal (submitted s (Turn.mk user (VStr (input s)) (imagePreview s))).
Proof.
  intro Hgo. rewrite (sendMessage_render s Hgo). unfold userTurn, or_.
  destruct (input s); reflexivity.
Qed.

Lemma user_turn_is_draft_witness :
  render_after pngStagedBlank (sendMessage pngStagedBlank) =
    Normal (submitted pngStagedBlank
              (Turn.mk user (VStr (lit "  "))
                       (VStr (lit "blob:http://localhost:5173/1")))).
Proof.
  apply (user_turn_is_draft pngStagedBlank). reflexivity.
Defined.

(* ================================================================== *)
(** * More on settling *)
(* ================================================================== *)

(** X12. Whatever the outcome of the request, as long as the text it
    leads to is one React can show (not an object, nor an array holding
    one), the continuation of a submit calls no setter until its last
    segment, and that segment appends exactly one assistant turn without
    image, whose text is [reply_text] of the outcome (the error text when
    [fetch] or [res.json()] rejects, [data.answer] otherwise), and clears
    the thinking flag; when reading [data.answer] throws, the render
    throws. *)
Theorem settled_request_effect (s : AppState) (o : outcome Response) :
  proceeds s = true ->
  (forall text, reply_text o = Normal text -> renderable text = true) ->
  exists k,
    pending_fetch (sendMessage s) = Some (endpoint, request s, k) /\
    finishes_with
      (fun s2 r =>
         r = match reply_text o with
             | Normal text =>
                 Normal (replied s2 (Turn.mk assistant text VNull))
             | Thrown e => Thrown e
             end)
      (k o).
Proof.
  intros Hgo _.
  destruct (sendMessage_pending s Hgo) as (k & Hk & Hrej & Hful).
  exists k. split; [exact Hk |].
  destruct o as [res | e].
  - destruct (Hful res) as (k' & Hres & Hdata & Herr).
    rewrite Hres. simpl. intros o Ho. rewrite Ho.
    destruct (json res) as [data | e].
    + rewrite Hdata. simpl. split; [reflexivity |]. intro s2.
      unfold render_after. simpl. unfold appendAnswer.
      destruct (get data (lit "answer")); reflexivity.
    + rewrite Herr. simpl. split; [reflexivity |]. intro s2. reflexivity.
  - rewrite Hrej. simpl. split; [reflexivity |]. intro s2. reflexivity.
Qed.

Lemma settled_request_effect_witness :
  exists k,
    pending_fetch (sendMessage draft_hello) =
      Some (endpoint, request draft_hello, k) /\
    finishes_with
      (fun s2 r =>
         r = Normal
               (replied s2 (Turn.mk assistant (VStr (lit "Oak trees.")) VNull)))
      (k (Fulfilled okReply)).
Proof.
  apply (settled_request_effect draft_hello (Fulfilled okReply)).
  - reflexivity.
  - intros text H. injection H as <-. reflexivity.
Defined.

Lemma lookup_missing (key : jsstring) (props : list (jsstring * value)) :
  (forall v, ~ In (key, v) props) -> lookup key props = VUndefined.
Proof.
  induction props as [| [k v] rest IH]; simpl; intro H; [reflexivity |].
  destruct (str_eqb k key) eqn:E.
  - apply str_eqb_eq in E. subst k. destruct (H v). left. reflexivity.
  - apply IH. intros v' Hin. apply (H v'). right. exact Hin.
Qed.

(** X13. When the response body is a JSON object without an [answer]
    property, or a JSON value that is neither an object nor [null], the
    assistant turn is appended with [undefined] as text; no error turn
    appears. *)
Theorem missing_answer_is_undefined
    (s : AppState) (res : Response) (data : value) :
  proceeds s = true ->
  json res = Fulfilled data ->
  (exists props, data = VObj props /\
                 forall v, ~ In (lit "answer", v) props) \/
  (exists b, data = VBool b) \/ (exists n, data = VNum n) \/
  (exists str, data = VStr str) \/ (exists items, data = VArr items) ->
  exists k,
    pending_fetch (sendMessage s) = Some (endpoint, request s, k) /\
    finishes_with
      (fun s2 r =>
         r = Normal (replied s2 (Turn.mk assistant VUndefined VNull)))
      (k (Fulfilled res)).
Proof.
  intros Hgo Hj Hd.
  destruct (sendMessage_pending s Hgo) as (k & Hk & _ & Hful).
  exists k. split; [exact Hk |].
  destruct (Hful res) as (k' & Hres & Hdata & _).
  assert (E : get data (lit "answer") = Normal VUndefined).
  { destruct Hd as [(props & -> & Hp) | [(b & ->) | [(n & ->) |
                   [(str & ->) | (items & ->)]]]]; simpl;
      try reflexivity.
    rewrite (lookup_missing (lit "answer") props Hp). reflexivity. }
  rewrite Hres. simpl. intros o Ho. rewrite Ho, Hj, Hdata. simpl.
  split; [reflexivity |]. intro s2.
  unfold render_after. simpl. unfold appendAnswer. rewrite E.
  reflexivity.
Qed.

Lemma missing_answer_is_undefined_witness :
  exists k,
    pending_fetch (sendMessage draft_hello) =
      Some (endpoint, request draft_hello, k) /\
    finishes_with
      (fun s2 r =>
         r = Normal (replied s2 (Turn.mk assistant VUndefined VNull)))
      (k (Fulfilled emptyObjectReply)).
Proof.
  apply (missing_answer_is_undefined draft_hello emptyObjectReply (VObj [])).
  - reflexivity.
  - reflexivity.
  - left. exists []. split; [reflexivity |]. intros v H. destruct H.
Defined.

(** X14. The status of a response plays no part: two responses whose
    bodies parse alike lead the continuation to the same end, whatever
    their status. *)
Theorem status_ignored
    (s : AppState) (res res' : Response)
    (Q : AppState -> completion AppState -> Prop) :
  proceeds s = true ->
  json res = json res' ->
  exists k,
    pending_fetch (sendMessage s) = Some (endpoint, request s, k) /\
    (finishes_with Q (k (Fulfilled res)) <->
     finishes_with Q (k (Fulfilled res'))).
Proof.
  intros Hgo Hj.
  destruct (sendMessage_pending s Hgo) as (k & Hk & _ & Hful).
  exists k. split; [exact Hk |].
  destruct (Hful res) as (k1 & H1 & Hd1 & He1).
  destruct (Hful res') as (k2 & H2 & Hd2 & He2).
  rewrite H1, H2. simpl.
  assert (E : forall o, k1 o = k2 o).
  { intros [data | e]; [rewrite Hd1, Hd2 | rewrite He1, He2]; reflexivity. }
  split; intros H o Ho.
  - rewrite <- E. apply H. rewrite Ho. symmetry. exact Hj.
  - rewrite E. apply H. rewrite Ho. exact Hj.
Qed.

Lemma status_ignored_witness :
  exists k,
    pending_fetch (sendMessage draft_hello) =
      Some (endpoint, request draft_hello, k) /\
    (finishes_with (fun _ _ => True) (k (Fulfilled okReply)) <->
     finishes_with (fun _ _ => True) (k (Fulfilled okReply201))).
Proof.
  apply (status_ignored draft_hello okReply okReply201 (fun _ _ => True)).
  - reflexivity.
  - reflexivity.
Defined.

(** X15. When the response body is the JSON value [null], reading
    [data.answer] throws inside the updater, outside the [try] block: the
    render after the last segment throws and the component is unmounted;
    no error turn is shown. *)
Theorem null_body_unmounts (s : AppState) (res : Response) :
  proceeds s = true ->
  json res = Fulfilled VNull ->
  exists k,
    pending_fetch (sendMessage s) = Some (endpoint, request s, k) /\
    exists k',
      k (Fulfilled res) = Await (res_json res) k' /\
      forall o, settles (res_json res) o ->
      forall s2 waiting, advance s2 waiting (k' o) = Unmounted.
Proof.
  intros Hgo Hj.
  destruct (sendMessage_pending s Hgo) as (k & Hk & _ & Hful).
  exists k. split; [exact Hk |].
  destruct (Hful res) as (k' & Hres & Hdata & _).
  exists k'. split; [exact Hres |].
  intros o Ho s2 waiting. simpl in Ho. rewrite Ho, Hj, Hdata.
  reflexivity.
Qed.

Lemma null_body_unmounts_witness :
  exists k,
    pending_fetch (sendMessage draft_hello) =
      Some (endpoint, request draft_hello, k) /\
    exists k',
      k (Fulfilled nullReply) = Await (res_json nullReply) k' /\
      forall o, settles (res_json nullReply) o ->
      forall s2 waiting, advance s2 waiting (k' o) = Unmounted.
Proof.
  apply (null_body_unmounts draft_hello nullReply).
  - reflexivity.
  - reflexivity.
Defined.

(* ================================================================== *)
(** * What resumed handlers do *)
(* ================================================================== *)

Section Completions.

Variable Rel : AppState -> AppState -> Prop.

Hypothesis handlers_resume : forall s ev, resumptions_rel Rel (handler s ev).

Lemma parked_rel (t : task) :
  resumptions_rel Rel t ->
  Forall (waiting_rel Rel) (parked (snd (run_sync t))).
Proof.
  induction t as [| e | a k IH | R p k IH]; simpl; intro H.
  - constructor.
  - constructor.
  - destruct (run_sync k) as [batch st]. simpl in *. exact (IH H).
  - constructor; [| constructor]. exact H.
Qed.

Lemma advance_waiting_rel
    (s : AppState) (waiting : list suspended) (t : task) :
  Forall (waiting_rel Rel) waiting ->
  resumptions_rel Rel t ->
  Forall (waiting_rel Rel) (waiting_of (advance s waiting t)).
Proof.
  intros Hw Ht. unfold advance.
  destruct (render_after s t); simpl; [| constructor].
  apply Forall_app. split; [exact Hw | exact (parked_rel t Ht)].
Qed.

Lemma reachable_waiting_rel (w : World) :
  reachable w -> Forall (waiting_rel Rel) (waiting_of w).
Proof.
  induction 1 as [| w w' _ IH Hstep]; [constructor |].
  destruct Hstep as [s waiting ev _ | s b a R p k o Ho]; simpl in IH.
  - apply advance_waiting_rel; [exact IH | apply handlers_resume].
  - apply Forall_app in IH as [Hb Hrest].
    inversion Hrest as [| w0 l0 Hk Ha]; subst.
    apply advance_waiting_rel.
    + apply Forall_app. split; assumption.
    + exact (proj2 (Hk o Ho)).
Qed.

Lemma settle_rel
    (s s' : AppState) (before after waiting' : list suspended)
    (R : Type) (p : promise R) (k : outcome R -> task) (o : outcome R) :
  reachable (Mounted s (before ++ Waiting p k :: after)) ->
  settles p o ->
  advance s (before ++ after) (k o) = Mounted s' waiting' ->
  Rel s s'.
Proof.
  intros Hr Ho Hadv.
  pose proof (reachable_waiting_rel _ Hr) as Hw. simpl in Hw.
  apply Forall_app in Hw as [_ Hrest].
  inversion Hrest as [| w0 l0 Hk _]; subst.
  destruct (Hk o Ho) as [Hseg _].
  unfold advance in Hadv.
  destruct (render_after s (k o)) as [s1 |] eqn:E; [| discriminate Hadv].
  injection Hadv as <- _. exact (Hseg s s1 E).
Qed.

End Completions.

Lemma sendMessage_resumes (s : AppState) :
  resumptions_rel completion_effect (sendMessage s).
Proof.
  destruct (proceeds s) eqn:Hgo.
  - rewrite (sendMessage_runs s Hgo). simpl.
    intros o _. destruct o as [res | e]; simpl.
    + split.
      { intros s0 s' E. injection E as <-. left. reflexivity. }
      intros o Ho. rewrite Ho. destruct (json res) as [data | e]; simpl;
        (split; [| exact Logic.I]); intros s0 s' E;
        unfold render_after in E; simpl in E.
      * unfold appendAnswer in E.
        destruct (get data (lit "answer")) as [answer |];
          [| discriminate E].
        injection E as <-. right. left. exists answer. reflexivity.
      * injection E as <-. right. left. exists (VStr error_text).
        reflexivity.
    + split; [| exact Logic.I]. intros s0 s' E. injection E as <-.
      right. left. exists (VStr error_text). reflexivity.
  - rewrite (sendMessage_skips s Hgo). exact Logic.I.
Qed.

Lemma ingest_resumes (f : File.t) :
  resumptions_rel completion_effect (ingest f).
Proof.
  simpl. intros o Ho. rewrite Ho.
  destruct (File.dataURL f) as [r | e] eqn:E; simpl;
    (split; [| exact Logic.I]); intros s s' E'; injection E' as <-.
  - right. right. exists f, r. split; [exact E | reflexivity].
  - left. reflexivity.
Qed.

Lemma handlers_resume_effect (s : AppState) (ev : event) :
  resumptions_rel completion_effect (handler s ev).
Proof.
  destruct ev as [v | key shift | | items | file |]; simpl.
  - exact Logic.I.
  - unfold onKeyDown.
    destruct (str_eqb key (lit "Enter") && negb shift);
      [apply sendMessage_resumes | exact Logic.I].
  - apply sendMessage_resumes.
  - unfold handlePaste.
    destruct (find _ items) as [item |]; [| exact Logic.I].
    destruct (Item.getAsFile item) as [f |];
      [apply (ingest_resumes f) | exact Logic.I].
  - destruct file as [f |]; simpl; [| exact Logic.I].
    destruct (startsWith (File.type f) (lit "image/"));
      [apply (ingest_resumes f) | exact Logic.I].
  - exact Logic.I.
Qed.

Lemma completion_effect_input (s s' : AppState) :
  completion_effect s s' -> input s' = input s.
Proof.
  intros [-> | [(text & ->) | (f & r & _ & ->)]]; reflexivity.
Qed.

Lemma completion_effect_messages (s s' : AppState) :
  completion_effect s s' ->
  exists later, messages s' = messages s ++ later.
Proof.
  intros [-> | [(text & ->) | (f & r & _ & ->)]]; simpl.
  - exists []. symmetry. apply app_nil_r.
  - eexists. reflexivity.
  - exists []. symmetry. apply app_nil_r.
Qed.

(** X16. In a reachable state of the component, when any waiting
    handler is resumed by the settling of its promise, the segment it
    runs does one of three things to the state: nothing; append one
    assistant turn without image and clear the thinking flag; or set both
    attachment cells from one file.  In particular it never touches the
    draft the user is typing. *)
Theorem completion_effects
    (s s' : AppState) (before after waiting' : list suspended)
    (R : Type) (p : promise R) (k : outcome R -> task) (o : outcome R) :
  reachable (Mounted s (before ++ Waiting p k :: after)) ->
  settles p o ->
  advance s (before ++ after) (k o) = Mounted s' waiting' ->
  completion_effect s s' /\ input s' = input s.
Proof.
  intros Hr Ho Hadv.
  assert (H : completion_effect s s').
  { exact (settle_rel completion_effect handlers_resume_effect
             s s' before after waiting' R p k o Hr Ho Hadv). }
  split; [exact H | exact (completion_effect_input s s' H)].
Qed.

Lemma typedWhileWaiting_reachable :
  reachable (Mounted typedWhileWaiting helloWaiting).
Proof.
  eapply reach_step.
  - eapply reach_step.
    + eapply reach_step.
      * apply reach_initial.
      * apply (step_event initial [] (Change (lit "hello"))). reflexivity.
    + apply (step_event draft_hello [] SendClick). reflexivity.
  - exact (step_event (submitted draft_hello (userTurn draft_hello))
             helloWaiting (Change (lit "next")) eq_refl).
Qed.

Lemma completion_effects_witness :
  completion_effect typedWhileWaiting (replied typedWhileWaiting errorTurn) /\
  input (replied typedWhileWaiting errorTurn) = lit "next".
Proof.
  apply (completion_effects typedWhileWaiting
           (replied typedWhileWaiting errorTurn) [] [] []
           Response (fetch endpoint (request draft_hello))
           helloContinuation (Rejected NetworkError)).
  - exact typedWhileWaiting_reachable.
  - exact Logic.I.
  - reflexivity.
Defined.

(* ================================================================== *)
(** * The transcript *)
(* ================================================================== *)

Lemma event_appends (s s' : AppState) (ev : event) :
  render_after s (handler s ev) = Normal s' ->
  exists later, messages s' = messages s ++ later.
Proof.
  assert (Hsame : forall t, fst (run_sync t) = [] ->
            render_after s t = Normal s' ->
            exists later, messages s' = messages s ++ later).
  { intros t Ht E. unfold render_after in E. rewrite Ht in E.
    injection E as <-. exists []. symmetry. apply app_nil_r. }
  assert (Hsend : render_after s (sendMessage s) = Normal s' ->
            exists later, messages s' = messages s ++ later).
  { destruct (proceeds s) eqn:Hgo.
    - rewrite (sendMessage_render s Hgo). intro E. injection E as <-.
      eexists. reflexivity.
    - rewrite (sendMessage_skips s Hgo). apply Hsame. reflexivity. }
  destruct ev as [v | key shift | | items | file |]; simpl.
  - intro E. injection E as <-. exists []. symmetry. apply app_nil_r.
  - unfold onKeyDown.
    destruct (str_eqb key (lit "Enter") && negb shift);
      [exact Hsend | apply Hsame; reflexivity].
  - exact Hsend.
  - apply Hsame. unfold handlePaste.
    destruct (find _ items) as [item |]; [| reflexivity].
    destruct (Item.getAsFile item); reflexivity.
  - apply Hsame. destruct file as [f |]; simpl; [| reflexivity].
    destruct (startsWith (File.type f) (lit "image/")); reflexivity.
  - intro E. injection E as <-. exists []. symmetry. apply app_nil_r.
Qed.

Lemma step_appends (w w' : World) (s s' : AppState) :
  reachable w -> step w w' ->
  state_of w = Some s -> state_of w' = Some s' ->
  exists later, messages s' = messages s ++ later.
Proof.
  intros Hr Hstep Hs Hs'.
  destruct Hstep as [s0 waiting ev _ | s0 b a R p k o Ho];
    injection Hs as <-.
  - unfold advance in Hs'.
    destruct (render_after s0 (handler s0 ev)) as [s1 |] eqn:E;
      [| discriminate Hs'].
    injection Hs' as <-. exact (event_appends s0 s1 ev E).
  - destruct (advance s0 (b ++ a) (k o)) as [s1 waiting1 |] eqn:E;
      [| discriminate Hs'].
    injection Hs' as <-. apply completion_effect_messages.
    exact (settle_rel completion_effect handlers_resume_effect
             s0 s1 b a waiting1 R p k o Hr Ho E).
Qed.

Lemma steps_reachable (w w' : World) :
  reachable w -> steps w w' -> reachable w'.
Proof.
  intros Hr Hs. induction Hs as [| w w' w'' _ IH Hstep]; [exact Hr |].
  exact (reach_step (IH Hr) Hstep).
Qed.

(** X17. The transcript is append-only: whatever events and settlings
    take a reachable component from one state to a later one, the later
    transcript is the earlier one followed by further turns; no turn is
    ever removed, edited or reordered. *)
Theorem transcript_append_only (w w' : World) (s s' : AppState) :
  reachable w ->
  steps w w' ->
  state_of w = Some s ->
  state_of w' = Some s' ->
  exists later, messages s' = messages s ++ later.
Proof.
  intros Hr Hsteps. revert s'.
  induction Hsteps as [| w w' w'' Hs IH Hstep]; intros s' Hw Hw'.
  - rewrite Hw in Hw'. injection Hw' as <-. exists [].
    symmetry. apply app_nil_r.
  - destruct w' as [s1 waiting1 |]; [| inversion Hstep].
    destruct (IH Hr s1 Hw eq_refl) as (l1 & E1).
    destruct (step_appends (Mounted s1 waiting1) w'' s1 s'
                (steps_reachable w _ Hr Hs) Hstep eq_refl Hw')
      as (l2 & E2).
    exists (l1 ++ l2). rewrite E2, E1. symmetry. apply app_assoc.
Qed.

Lemma transcript_append_only_witness :
  exists later,
    messages (replied typedWhileWaiting errorTurn)
    = messages draft_hello ++ later.
Proof.
  apply (transcript_append_only
           (Mounted draft_hello [])
           (Mounted (replied typedWhileWaiting errorTurn) [])).
  - eapply reach_step; [apply reach_initial |].
    apply (step_event initial [] (Change (lit "hello"))). reflexivity.
  - eapply steps_more.
    + eapply steps_more.
      * eapply steps_more; [apply steps_none |].
        apply (step_event draft_hello [] SendClick). reflexivity.
      * exact (step_event (submitted draft_hello (userTurn draft_hello))
                 helloWaiting (Change (lit "next")) eq_refl).
    + exact (step_settle typedWhileWaiting [] []
               (fetch endpoint (request draft_hello)) helloContinuation
               (Rejected NetworkError) Logic.I).
  - reflexivity.
  - reflexivity.
Defined.

Section ClosureInvariants.

Variable I : AppState -> Prop.

Hypothesis initial_ok : I initial.
Hypothesis handlers_keep_from : forall s ev, I s -> keeps I (handler s ev).

Lemma reachable_ok_from (w : World) : reachable w -> world_ok I w.
Proof.
  induction 1 as [| w w' _ IH Hstep].
  - split; [exact initial_ok | constructor].
  - destruct Hstep as [s waiting ev _ | s b a R p k o Ho];
      destruct IH as [Hs Hws].
    + apply advance_ok; auto.
    + apply Forall_app in Hws as [Hb Hrest].
      inversion Hrest as [| w0 l0 Hk Ha]; subst.
      apply advance_ok.
      * exact Hs.
      * apply Forall_app. split; assumption.
      * exact (Hk o Ho).
Qed.

End ClosureInvariants.

Lemma well_formed_same (s s' : AppState) :
  imagePreview s' = imagePreview s ->
  messages s' = messages s ->
  well_formed s -> well_formed s'.
Proof. intros Hp Hm [H1 H2]. split; [rewrite Hp | rewrite Hm]; assumption. Qed.

Lemma well_formed_replied (s : AppState) (text : value) :
  well_formed s -> well_formed (replied s (Turn.mk assistant text VNull)).
Proof.
  intros [H1 H2]. split; [exact H1 |]. simpl.
  apply Forall_app. split; [exact H2 |].
  constructor; [reflexivity | constructor].
Qed.

Lemma userTurn_well_formed (s : AppState) :
  string_or_null (imagePreview s) -> well_formed_turn (userTurn s).
Proof.
  intro H. split; [| exact H]. simpl. unfold or_.
  destruct (truthy (VStr (input s))); eexists; reflexivity.
Qed.

Lemma sendMessage_well_formed (s : AppState) :
  well_formed s -> keeps well_formed (sendMessage s).
Proof.
  intros [Hprev _]. destruct (proceeds s) eqn:Hgo.
  - rewrite (sendMessage_runs s Hgo). split.
    + intros s0 s' [_ Hm] E. injection E as <-. split.
      * left. reflexivity.
      * simpl. apply Forall_app. split; [exact Hm |].
        constructor; [| constructor].
        exact (userTurn_well_formed s Hprev).
    + simpl. intros o _. destruct o as [res | e]; simpl.
      * split.
        { intros s0 s' Hs E. injection E as <-. exact Hs. }
        intros o Ho. rewrite Ho. destruct (json res) as [data | e]; simpl;
          (split; [| exact Logic.I]); intros s0 s' Hs E;
          unfold render_after in E; simpl in E.
        -- unfold appendAnswer in E.
           destruct (get data (lit "answer")) as [answer |];
             [| discriminate E].
           injection E as <-. exact (well_formed_replied s0 answer Hs).
        -- injection E as <-.
           exact (well_formed_replied s0 (VStr error_text) Hs).
      * split; [| exact Logic.I]. intros s0 s' Hs E. injection E as <-.
        exact (well_formed_replied s0 (VStr error_text) Hs).
  - rewrite (sendMessage_skips s Hgo). split; [| exact Logic.I].
    intros s0 s' Hs E. injection E as <-. exact Hs.
Qed.

Lemma ingest_well_formed (f : File.t) : keeps well_formed (ingest f).
Proof.
  split.
  - intros s s' Hs E. injection E as <-. exact Hs.
  - simpl. intros o Ho. rewrite Ho.
    destruct (File.dataURL f) as [r | e]; simpl;
      (split; [| exact Logic.I]); intros s s' Hs E; injection E as <-.
    + split; [right; eexists; reflexivity | exact (proj2 Hs)].
    + exact Hs.
Qed.

Lemma handlers_well_formed (s : AppState) (ev : event) :
  well_formed s -> keeps well_formed (handler s ev).
Proof.
  intro Hs0.
  assert (Hret : keeps well_formed Return).
  { split; [| exact Logic.I]. intros s1 s' Hs E. injection E as <-.
    exact Hs. }
  destruct ev as [v | key shift | | items | file |]; simpl.
  - split; [| exact Logic.I]. intros s1 s' Hs E. injection E as <-.
    revert Hs. apply well_formed_same; reflexivity.
  - unfold onKeyDown.
    destruct (str_eqb key (lit "Enter") && negb shift);
      [apply sendMessage_well_formed; exact Hs0 | exact Hret].
  - apply sendMessage_well_formed. exact Hs0.
  - unfold handlePaste.
    destruct (find _ items) as [item |]; [| exact Hret].
    destruct (Item.getAsFile item) as [f |];
      [apply (ingest_well_formed f) |].
    split; [| exact Logic.I]. intros s1 s' Hs E. injection E as <-.
    exact Hs.
  - destruct file as [f |]; simpl; [| exact Hret].
    destruct (startsWith (File.type f) (lit "image/"));
      [apply (ingest_well_formed f) | exact Hret].
  - split; [| exact Logic.I]. intros s1 s' [_ Hm] E. injection E as <-.
    split; [left; reflexivity | exact Hm].
Qed.

(** X18. In every reachable state, every user turn of the transcript
    holds a string as text and [null] or a string as image, and every
    assistant turn holds no image. *)
Theorem turns_well_formed (w : World) (s : AppState) (turn : Turn.t) :
  reachable w ->
  state_of w = Some s ->
  In turn (messages s) ->
  well_formed_turn turn.
Proof.
  intros Hr Hs Hin.
  assert (H0 : well_formed initial).
  { split; [left; reflexivity | constructor]. }
  pose proof (reachable_ok_from well_formed H0 handlers_well_formed w Hr)
    as Hok.
  destruct w as [s0 waiting |]; [| discriminate Hs].
  injection Hs as <-. destruct Hok as [[_ Hm] _].
  exact (proj1 (Forall_forall _ _) Hm turn Hin).
Qed.

Lemma turns_well_formed_witness :
  well_formed_turn (Turn.mk user (VStr (lit "hello")) VNull).
Proof.
  apply (turns_well_formed (Mounted typedWhileWaiting helloWaiting)
           typedWhileWaiting).
  - exact typedWhileWaiting_reachable.
  - reflexivity.
  - left. reflexivity.
Defined.

(* ================================================================== *)
(** * The thinking flag *)
(* ================================================================== *)

Lemma existsb_without (b a : list suspended) (e : suspended) :
  awaits_reply e = false ->
  existsb awaits_reply (b ++ e :: a) = existsb awaits_reply (b ++ a).
Proof.
  intro H. rewrite !existsb_app. simpl. rewrite H. reflexivity.
Qed.

Lemma error_branch_clears (e : error) :
  clears_flag (ConsoleError (lit "Backend error:") e ;;
               SetMessages (append errorTurn) ;;
               SetIsThinking false ;; Return).
Proof.
  split; [reflexivity |]. intros s s' E. injection E as <-. reflexivity.
Qed.

Lemma answer_branch_clears (data : value) :
  clears_flag (SetMessages (appendAnswer data) ;;
               SetIsThinking false ;; Return).
Proof.
  split; [reflexivity |]. intros s s' E.
  unfold render_after in E. simpl in E.
  destruct (appendAnswer data (messages s)); [| discriminate E].
  injection E as <-. reflexivity.
Qed.

Lemma sendMessage_flag_entry (s : AppState) :
  Forall flag_entry (parked (snd (run_sync (sendMessage s)))).
Proof.
  destruct (proceeds s) eqn:Hgo.
  - rewrite (sendMessage_runs s Hgo). simpl.
    constructor; [| constructor]. simpl. intros [res | e].
    + right. eexists. eexists. split; [reflexivity |].
      intros [data | e].
      * apply answer_branch_clears.
      * apply error_branch_clears.
    + left. apply error_branch_clears.
  - rewrite (sendMessage_skips s Hgo). constructor.
Qed.

Lemma ingest_flag_entry (f : File.t) :
  Forall flag_entry (parked (snd (run_sync (ingest f)))).
Proof.
  constructor; [| constructor]. simpl.
  intros [result | e]; (split; [reflexivity |]); intros s s' E;
    injection E as <-; reflexivity.
Qed.

Lemma handler_flag_entry (s : AppState) (ev : event) :
  Forall flag_entry (parked (snd (run_sync (handler s ev)))).
Proof.
  destruct ev as [v | key shift | | items | file |]; simpl.
  - constructor.
  - unfold onKeyDown.
    destruct (str_eqb key (lit "Enter") && negb shift);
      [apply sendMessage_flag_entry | constructor].
  - apply sendMessage_flag_entry.
  - unfold handlePaste.
    destruct (find _ items) as [item |]; [| constructor].
    destruct (Item.getAsFile item) as [f |];
      [apply (ingest_flag_entry f) | constructor].
  - destruct file as [f |]; simpl; [| constructor].
    destruct (startsWith (File.type f) (lit "image/"));
      [apply (ingest_flag_entry f) | constructor].
  - constructor.
Qed.

Lemma sendMessage_flag (s s0 s' : AppState) :
  render_after s0 (sendMessage s) = Normal s' ->
  isThinking s' = true ->
  isThinking s0 = true \/
  existsb awaits_reply (parked (snd (run_sync (sendMessage s)))) = true.
Proof.
  destruct (proceeds s) eqn:Hgo.
  - intros _ _. right. rewrite (sendMessage_runs s Hgo). reflexivity.
  - rewrite (sendMessage_skips s Hgo). intros E H. injection E as <-.
    left. exact H.
Qed.

Lemma handler_flag (s s0 s' : AppState) (ev : event) :
  render_after s0 (handler s ev) = Normal s' ->
  isThinking s' = true ->
  isThinking s0 = true \/
  existsb awaits_reply (parked (snd (run_sync (handler s ev)))) = true.
Proof.
  assert (Hsame : forall t, fst (run_sync t) = [] ->
            render_after s0 t = Normal s' -> isThinking s' = true ->
            isThinking s0 = true \/
            existsb awaits_reply (parked (snd (run_sync t))) = true).
  { intros t Ht E H. unfold render_after in E. rewrite Ht in E.
    injection E as <-. left. exact H. }
  destruct ev as [v | key shift | | items | file |]; simpl.
  - intros E H. injection E as <-. left. exact H.
  - unfold onKeyDown.
    destruct (str_eqb key (lit "Enter") && negb shift);
      [apply sendMessage_flag | apply Hsame; reflexivity].
  - apply sendMessage_flag.
  - apply Hsame. unfold handlePaste.
    destruct (find _ items) as [item |]; [| reflexivity].
    destruct (Item.getAsFile item); reflexivity.
  - apply Hsame. destruct file as [f |]; simpl; [| reflexivity].
    destruct (startsWith (File.type f) (lit "image/")); reflexivity.
  - intros E H. injection E as <-. left. exact H.
Qed.

Lemma advance_clears
    (s : AppState) (waiting : list suspended) (t : task) :
  Forall flag_entry waiting -> clears_flag t ->
  flag_inv (advance s waiting t).
Proof.
  intros Hw [Hp Hc]. unfold advance.
  destruct (render_after s t) as [s' |] eqn:E; simpl; [| exact Logic.I].
  rewrite Hp, app_nil_r. split; [exact Hw |].
  intro H. rewrite (Hc s s' E) in H. discriminate H.
Qed.

Lemma flag_inv_step (w w' : World) : flag_inv w -> step w w' -> flag_inv w'.
Proof.
  intros Hinv Hstep.
  destruct Hstep as [s waiting ev _ | s b a R p k o Ho];
    destruct Hinv as [Hw Hflag].
  - unfold advance.
    destruct (render_after s (handler s ev)) as [s' |] eqn:E; simpl;
      [| exact Logic.I].
    split.
    + apply Forall_app. split; [exact Hw | apply handler_flag_entry].
    + intro H. rewrite existsb_app.
      destruct (handler_flag s s s' ev E H) as [H0 | H0].
      * rewrite (Hflag H0). reflexivity.
      * rewrite H0. apply orb_true_r.
  - apply Forall_app in Hw as [Hb Hrest].
    inversion Hrest as [| w0 l0 Hk Ha]; subst.
    assert (Hba : Forall flag_entry (b ++ a)).
    { apply Forall_app. split; assumption. }
    clear Hrest Ho. simpl in Hk. revert k o Hk Hflag.
    destruct p as [url init | res | file]; intros k o Hk Hflag.
    + destruct (Hk o) as [Hc | (res & k' & Hres & Hc)].
      * exact (advance_clears s (b ++ a) (k o) Hba Hc).
      * rewrite Hres. unfold advance. simpl. split.
        -- apply Forall_app. split; [exact Hba |].
           constructor; [exact Hc | constructor].
        -- intros _. rewrite existsb_app. simpl. apply orb_true_r.
    + exact (advance_clears s (b ++ a) (k o) Hba (Hk o)).
    + destruct (Hk o) as [Hp Hl]. unfold advance.
      destruct (render_after s (k o)) as [s' |] eqn:E; simpl;
        [| exact Logic.I].
      rewrite Hp, app_nil_r. split; [exact Hba |].
      intro H. rewrite (Hl s s' E) in H.
      rewrite <- (existsb_without b a (Waiting (readAsDataURL file) k));
        [exact (Hflag H) | reflexivity].
Qed.

(** X19. In every reachable state, while the thinking flag is set some
    handler is still waiting for [fetch] or for [res.json()]: the
    indicator never shows without a request under way. *)
Theorem thinking_implies_request_waiting (w : World) (s : AppState) :
  reachable w ->
  state_of w = Some s ->
  isThinking s = true ->
  existsb awaits_reply (waiting_of w) = true.
Proof.
  intros Hr Hs Hflag.
  assert (Hinv : flag_inv w).
  { clear Hs Hflag. induction Hr as [| w w' _ IH Hstep].
    - split; [constructor | discriminate].
    - exact (flag_inv_step w w' IH Hstep). }
  destruct w as [s0 waiting |]; [| discriminate Hs].
  injection Hs as <-. exact (proj2 Hinv Hflag).
Qed.

Lemma thinking_implies_request_waiting_witness :
  existsb awaits_reply helloWaiting = true.
Proof.
  apply (thinking_implies_request_waiting
           (Mounted typedWhileWaiting helloWaiting) typedWhileWaiting).
  - exact typedWhileWaiting_reachable.
  - reflexivity.
  - reflexivity.
Defined.

(** X20. The thinking flag is no single-flight guard.  [sendMessage]
    reads neither the flag nor the transcript, so a submit proceeds in the
    same way while a request is under way; and a state is reachable in
    which the flag is cleared although a request is still waiting (two
    submits, the first one settled). *)
Theorem submit_not_single_flight :
  (forall s m b,
     sendMessage {| messages := m; input := input s; isThinking := b;
                    imageBase64 := imageBase64 s;
                    imagePreview := imagePreview s |}
     = sendMessage s) /\
  (exists w s,
     reachable w /\ state_of w = Some s /\
     isThinking s = false /\
     existsb awaits_reply (waiting_of w) = true).
Proof.
  split.
  - intros s m b. reflexivity.
  - exists (advance
              (submitted typedWhileWaiting (userTurn typedWhileWaiting))
              (parked (snd (run_sync (sendMessage typedWhileWaiting))))
              (helloContinuation (Rejected NetworkError))).
    eexists. split; [| split; [reflexivity | split; reflexivity]].
    eapply reach_step.
    + eapply reach_step.
      * exact typedWhileWaiting_reachable.
      * exact (step_event typedWhileWaiting helloWaiting SendClick eq_refl).
    + exact (step_settle
               (submitted typedWhileWaiting (userTurn typedWhileWaiting))
               [] (parked (snd (run_sync (sendMessage typedWhileWaiting))))
               (fetch endpoint (request draft_hello)) helloContinuation
               (Rejected NetworkError) Logic.I).
Qed.
